(** * The Platform backend: moderation API over a relational store

    A shallow embedding of [backend_server.js]: the four tables created by
    [initDb], the SQL statements the route handlers issue, and the handlers
    themselves as functions from a store to a store and an HTTP response.

    What the embedding covers and what it leaves out:
    - a request body is a JavaScript object, a finite map from keys to
      values; values are [undefined], [null], booleans, whole numbers and
      strings (fractions, nested objects and arrays are left out);
    - the store is the content of the four tables, each a list of rows in
      insertion order, with the sequence behind each [SERIAL] column;
    - a statement either fails with an error of the store or returns rows;
      connectivity failures are left out, so a statement fails only on a
      parameter the store cannot read or on a constraint of the schema;
    - [NOW()] and [CURRENT_TIMESTAMP] are the time at which the request is
      handled, an integer handed to each handler;
    - [ORDER BY] is a sort whose order among equal keys the theorems never
      rely on. *)

From Stdlib Require Import ZArith Ascii.
From stdpp Require Import gmap strings list fin_maps sorting pretty.

Local Open Scope Z_scope.

(** ** JavaScript values *)

Inductive jsval : Type :=
  | JUndefined
  | JNull
  | JBool (b : bool)
  | JNum (n : Z)
  | JStr (s : string).

Global Instance jsval_eq_dec : EqDecision jsval.
Proof. solve_decision. Defined.

(** [ToBoolean]: what [!v] and [v || w] look at. *)
Definition truthy (v : jsval) : bool :=
  match v with
  | JUndefined | JNull => false
  | JBool b => b
  | JNum n => negb (n =? 0)
  | JStr s => negb (String.eqb s "")
  end.

(** [a || b] *)
Definition js_or (a b : jsval) : jsval := if truthy a then a else b.

(** [const { k } = req.body]: a key the object lacks reads as [undefined]. *)
Definition field (body : gmap string jsval) (k : string) : jsval :=
  default JUndefined (body !! k).

(** ** Query parameters

    The driver sends every parameter as text, or as NULL for [null] and
    [undefined]; the store then reads the text at the type of the column the
    parameter is compared with or assigned to. *)

Definition prepareValue (v : jsval) : option string :=
  match v with
  | JUndefined | JNull => None
  | JBool b => Some (if b then "true" else "false")
  | JNum n => Some (pretty n)
  | JStr s => Some s
  end.

Fixpoint ltrim (s : string) : string :=
  match s with
  | String c r => if Ascii.is_space c then ltrim r else s
  | EmptyString => EmptyString
  end.

Definition trim (s : string) : string :=
  String.rev (ltrim (String.rev (ltrim s))).

Fixpoint digits (s : string) (acc : Z) : option Z :=
  match s with
  | EmptyString => Some acc
  | String c r =>
      match Ascii.is_nat c with
      | Some d => digits r (10 * acc + Z.of_nat d)
      | None => None
      end
  end.

(** An optionally signed, non-empty run of decimal digits, blanks around it
    allowed. *)
Definition signed_digits (t : string) : option Z :=
  let u := trim t in
  let '(neg, d) :=
    match u with
    | String "-"%char r => (true, r)
    | String "+"%char r => (false, r)
    | _ => (false, u)
    end in
  match d with
  | EmptyString => None
  | _ => (fun n : Z => if neg : bool then - n else n) <$> digits d 0
  end.

(** Input of an [INTEGER]: 32 bits, signed. *)
Definition int4_in (t : string) : option Z :=
  match signed_digits t with
  | Some v => if decide (- 2 ^ 31 <= v < 2 ^ 31) then Some v else None
  | None => None
  end.

(** Input of a [NUMERIC]; whole amounts only. *)
Definition numeric_in (t : string) : option Z := signed_digits t.

Definition lower (c : ascii) : ascii :=
  let n := Ascii.N_of_ascii c in
  if decide (65 <= n <= 90)%N then Ascii.ascii_of_N (n + 32) else c.

Fixpoint lowercase (s : string) : string :=
  match s with
  | EmptyString => EmptyString
  | String c r => String (lower c) (lowercase r)
  end.

(** Input of a [BOOLEAN]: the spellings of true and false the store
    accepts, in any case, blanks around them allowed. *)
Definition bool_in (t : string) : option bool :=
  let u := lowercase (trim t) in
  if decide (u ∈ ["t"; "tr"; "tru"; "true"; "y"; "ye"; "yes"; "on"; "1"])
  then Some true
  else if decide (u ∈ ["f"; "fa"; "fal"; "fals"; "false"; "n"; "no"; "of";
                       "off"; "0"])
  then Some false
  else None.

(** A parameter read at a column's type: [None] when the store cannot read
    it, [Some None] for NULL. *)
Definition typed_param {A} (read : string → option A) (v : jsval)
  : option (option A) :=
  match prepareValue v with
  | None => Some None
  | Some t => Some <$> read t
  end.

Definition text_param (v : jsval) : option string := prepareValue v.
Definition int4_param : jsval → option (option Z) := typed_param int4_in.
Definition bool_param : jsval → option (option bool) := typed_param bool_in.
Definition numeric_param : jsval → option (option Z) := typed_param numeric_in.

(** ** Rows of the four tables

    A [NOT NULL] column holds a value, any other column an [option]. *)

Record article : Type := {
  art_id : Z;
  art_title : string;
  art_category : string;
  art_author : option string;
  art_date : option Z;
  art_image : option string;
  art_excerpt : option string;
  art_content : option string;
  art_views : option Z;
  art_status : option string;
  art_is_breaking : option bool;
  art_sub_headline : option string
}.

Record ad : Type := {
  ad_id : Z;
  ad_client_name : string;
  ad_email : string;
  ad_plan : string;
  ad_amount : option Z;
  ad_status : option string;
  ad_date_submitted : option Z;
  ad_receipt_image : option string;
  ad_ad_image : option string;
  ad_ad_content : option string;
  ad_ad_url : option string;
  ad_ad_headline : option string;
  ad_ad_content_file : option string
}.

Record comment : Type := {
  cm_id : Z;
  cm_article_id : option Z;
  cm_author : string;
  cm_email : string;
  cm_content : string;
  cm_date : option Z
}.

Record support_message : Type := {
  sm_id : Z;
  sm_name : string;
  sm_email : string;
  sm_subject : option string;
  sm_message : string;
  sm_date : option Z;
  sm_status : option string
}.

Global Instance article_eq_dec : EqDecision article.
Proof. solve_decision. Defined.
Global Instance ad_eq_dec : EqDecision ad.
Proof. solve_decision. Defined.
Global Instance comment_eq_dec : EqDecision comment.
Proof. solve_decision. Defined.
Global Instance support_message_eq_dec : EqDecision support_message.
Proof. solve_decision. Defined.

(** ** The store *)

Record store : Type := {
  articles : list article;
  ads : list ad;
  comments : list comment;
  support_messages : list support_message;
  articles_id_seq : Z;
  ads_id_seq : Z;
  comments_id_seq : Z;
  support_messages_id_seq : Z
}.

(** The store right after [initDb] on an empty database. *)
Definition init_store : store :=
  {| articles := []; ads := []; comments := []; support_messages := [];
     articles_id_seq := 1; ads_id_seq := 1; comments_id_seq := 1;
     support_messages_id_seq := 1 |}.

Definition set_articles (l : list article) (s : store) : store :=
  {| articles := l; ads := ads s; comments := comments s;
     support_messages := support_messages s;
     articles_id_seq := articles_id_seq s; ads_id_seq := ads_id_seq s;
     comments_id_seq := comments_id_seq s;
     support_messages_id_seq := support_messages_id_seq s |}.

Definition set_ads (l : list ad) (s : store) : store :=
  {| articles := articles s; ads := l; comments := comments s;
     support_messages := support_messages s;
     articles_id_seq := articles_id_seq s; ads_id_seq := ads_id_seq s;
     comments_id_seq := comments_id_seq s;
     support_messages_id_seq := support_messages_id_seq s |}.

Definition set_comments (l : list comment) (s : store) : store :=
  {| articles := articles s; ads := ads s; comments := l;
     support_messages := support_messages s;
     articles_id_seq := articles_id_seq s; ads_id_seq := ads_id_seq s;
     comments_id_seq := comments_id_seq s;
     support_messages_id_seq := support_messages_id_seq s |}.

Definition set_support_messages (l : list support_message) (s : store)
  : store :=
  {| articles := articles s; ads := ads s; comments := comments s;
     support_messages := l;
     articles_id_seq := articles_id_seq s; ads_id_seq := ads_id_seq s;
     comments_id_seq := comments_id_seq s;
     support_messages_id_seq := support_messages_id_seq s |}.

(** [nextval] on each sequence: the value is consumed even when the
    statement that drew it fails on a constraint. *)
Definition bump_articles_id_seq (s : store) : store :=
  {| articles := articles s; ads := ads s; comments := comments s;
     support_messages := support_messages s;
     articles_id_seq := articles_id_seq s + 1; ads_id_seq := ads_id_seq s;
     comments_id_seq := comments_id_seq s;
     support_messages_id_seq := support_messages_id_seq s |}.

Definition bump_ads_id_seq (s : store) : store :=
  {| articles := articles s; ads := ads s; comments := comments s;
     support_messages := support_messages s;
     articles_id_seq := articles_id_seq s; ads_id_seq := ads_id_seq s + 1;
     comments_id_seq := comments_id_seq s;
     support_messages_id_seq := support_messages_id_seq s |}.

Definition bump_comments_id_seq (s : store) : store :=
  {| articles := articles s; ads := ads s; comments := comments s;
     support_messages := support_messages s;
     articles_id_seq := articles_id_seq s; ads_id_seq := ads_id_seq s;
     comments_id_seq := comments_id_seq s + 1;
     support_messages_id_seq := support_messages_id_seq s |}.

Definition bump_support_messages_id_seq (s : store) : store :=
  {| articles := articles s; ads := ads s; comments := comments s;
     support_messages := support_messages s;
     articles_id_seq := articles_id_seq s; ads_id_seq := ads_id_seq s;
     comments_id_seq := comments_id_seq s;
     support_messages_id_seq := support_messages_id_seq s + 1 |}.

(** ** Results of a statement *)

Inductive pg_error : Type :=
  | InvalidTextRepresentation
  | NotNullViolation
  | CheckViolation
  | UniqueViolation
  | ForeignKeyViolation.

Inductive qresult (A : Type) : Type :=
  | QError (e : pg_error)
  | QRows (rows : list A).
Global Arguments QError {A} e.
Global Arguments QRows {A} rows.

(** ** Constraints and orderings of the schema *)

(** [CHECK (status IN (...))]: a NULL status passes the check. *)
Definition status_check (allowed : list string) (st : option string) : Prop :=
  match st with
  | None => True
  | Some v => v ∈ allowed
  end.

Global Instance status_check_dec allowed st :
  Decision (status_check allowed st).
Proof. destruct st; simpl; apply _. Defined.

Definition article_statuses : list string :=
  ["pending"; "published"; "rejected"].
Definition ad_statuses : list string := ["pending"; "active"; "rejected"].

(** [ORDER BY ... DESC] on a nullable timestamp: NULL sorts first, then the
    later time before the earlier one. *)
Definition ts_desc (x y : option Z) : Prop :=
  match x, y with
  | None, _ => True
  | Some _, None => False
  | Some a, Some b => b <= a
  end.

Global Instance ts_desc_dec x y : Decision (ts_desc x y).
Proof. destruct x, y; simpl; apply _. Defined.

Definition by_date_desc {A} (date : A → option Z) : relation A :=
  fun r1 r2 => ts_desc (date r1) (date r2).

Global Instance by_date_desc_dec {A} (date : A → option Z) :
  RelDecision (by_date_desc date).
Proof. intros r1 r2. unfold by_date_desc. apply _. Defined.

Definition order_by_desc {A} (date : A → option Z) (rows : list A) : list A :=
  merge_sort (by_date_desc date) rows.

(** [UPDATE ... SET ... WHERE ...] on the rows of a table: the rows the
    condition holds of are rewritten where they stand. *)
Definition update_where {A} (hit : A → Prop) `{!∀ a, Decision (hit a)}
    (upd : A → A) (rows : list A) : list A :=
  (fun a => if decide (hit a) then upd a else a) <$> rows.

(** ** The statements

    One definition per SQL statement of the handlers, parameters in the
    order of [$1], [$2], ... *)

Definition published_or_null (a : article) : Prop :=
  art_status a = Some "published" ∨ art_status a = None.

Global Instance published_or_null_dec a : Decision (published_or_null a).
Proof. unfold published_or_null. apply _. Defined.

(** [SELECT * FROM articles WHERE status = 'published' OR status IS NULL
    ORDER BY date DESC] *)
Definition select_published_articles (s : store) : list article :=
  order_by_desc art_date (filter published_or_null (articles s)).

(** [INSERT INTO articles (title, sub_headline, category, author, image,
    excerpt, content, status) VALUES ($1, ..., $8) RETURNING *] *)
Definition insert_article (now : Z) (p1 p2 p3 p4 p5 p6 p7 p8 : jsval)
    (s : store) : store * qresult article :=
  let id := articles_id_seq s in
  let s1 := bump_articles_id_seq s in
  match text_param p1, text_param p3 with
  | Some title, Some category =>
      let status := text_param p8 in
      if decide (status_check article_statuses status) then
        if decide (id ∈ art_id <$> articles s) then (s1, QError UniqueViolation)
        else
          let row :=
            {| art_id := id;
               art_title := title;
               art_category := category;
               art_author := text_param p4;
               art_date := Some now;
               art_image := text_param p5;
               art_excerpt := text_param p6;
               art_content := text_param p7;
               art_views := Some 0;
               art_status := status;
               art_is_breaking := Some false;
               art_sub_headline := text_param p2 |} in
          (set_articles (articles s ++ [row]) s1, QRows [row])
      else (s1, QError CheckViolation)
  | _, _ => (s1, QError NotNullViolation)
  end.

(** [SELECT * FROM articles WHERE status = 'pending' ORDER BY date DESC] *)
Definition select_pending_articles (s : store) : list article :=
  order_by_desc art_date
    (filter (fun a => art_status a = Some "pending") (articles s)).

(** [WHERE id = $n]: a NULL parameter matches no row. *)
Definition id_is (k : option Z) (id : Z) : Prop := k = Some id.

Global Instance id_is_dec k id : Decision (id_is k id).
Proof. unfold id_is. apply _. Defined.

Definition approve_row (now : Z) (is_breaking : option bool) (a : article)
  : article :=
  {| art_id := art_id a;
     art_title := art_title a;
     art_category := art_category a;
     art_author := art_author a;
     art_date := Some now;
     art_image := art_image a;
     art_excerpt := art_excerpt a;
     art_content := art_content a;
     art_views := art_views a;
     art_status := Some "published";
     art_is_breaking := is_breaking;
     art_sub_headline := art_sub_headline a |}.

(** [UPDATE articles SET status = 'published', is_breaking = $1,
    date = NOW() WHERE id = $2 RETURNING *] *)
Definition update_article_approve (now : Z) (p1 p2 : jsval) (s : store)
  : store * qresult article :=
  match bool_param p1, int4_param p2 with
  | Some is_breaking, Some k =>
      let hit := fun a => id_is k (art_id a) in
      (set_articles
         (update_where hit (approve_row now is_breaking) (articles s)) s,
       QRows (approve_row now is_breaking <$> filter hit (articles s)))
  | _, _ => (s, QError InvalidTextRepresentation)
  end.

Definition overwrite_row (title category : string)
    (sub_headline author image content : option string)
    (is_breaking : option bool) (a : article) : article :=
  {| art_id := art_id a;
     art_title := title;
     art_category := category;
     art_author := author;
     art_date := art_date a;
     art_image := image;
     art_excerpt := art_excerpt a;
     art_content := content;
     art_views := art_views a;
     art_status := art_status a;
     art_is_breaking := is_breaking;
     art_sub_headline := sub_headline |}.

(** [UPDATE articles SET title = $1, sub_headline = $2, category = $3,
    author = $4, image = $5, content = $6, is_breaking = $7 WHERE id = $8
    RETURNING *]; the [NOT NULL] columns are checked on the rows the
    statement writes, so a statement that matches no row cannot fail on
    them. *)
Definition update_article (p1 p2 p3 p4 p5 p6 p7 p8 : jsval) (s : store)
  : store * qresult article :=
  match bool_param p7, int4_param p8 with
  | Some is_breaking, Some k =>
      let hit := fun a => id_is k (art_id a) in
      match filter hit (articles s) with
      | [] => (s, QRows [])
      | _ :: _ =>
          match text_param p1, text_param p3 with
          | Some title, Some category =>
              let upd :=
                overwrite_row title category (text_param p2) (text_param p4)
                  (text_param p5) (text_param p6) is_breaking in
              (set_articles (update_where hit upd (articles s)) s,
               QRows (upd <$> filter hit (articles s)))
          | _, _ => (s, QError NotNullViolation)
          end
      end
  | _, _ => (s, QError InvalidTextRepresentation)
  end.

(** A comment references an article through [article_id]. *)
Definition references (c : comment) (a : article) : Prop :=
  cm_article_id c = Some (art_id a).

Global Instance references_dec c a : Decision (references c a).
Proof. unfold references. apply _. Defined.

(** [DELETE FROM articles WHERE id = $1]; [ON DELETE CASCADE] removes with
    each deleted article the comments that reference it. *)
Definition delete_article (p1 : jsval) (s : store)
  : store * qresult article :=
  match int4_param p1 with
  | Some k =>
      let hit := fun a => id_is k (art_id a) in
      let deleted := filter hit (articles s) in
      (set_comments
         (filter (fun c => ¬ Exists (references c) deleted) (comments s))
         (set_articles (filter (fun a => ¬ hit a) (articles s)) s),
       QRows [])
  | None => (s, QError InvalidTextRepresentation)
  end.

(** [INSERT INTO ads (client_name, email, plan, amount, receipt_image,
    ad_image, ad_content, ad_url, ad_headline, ad_content_file)
    VALUES ($1, ..., $10) RETURNING *] *)
Definition insert_ad (now : Z) (p1 p2 p3 p4 p5 p6 p7 p8 p9 p10 : jsval)
    (s : store) : store * qresult ad :=
  match numeric_param p4 with
  | Some amount =>
      let id := ads_id_seq s in
      let s1 := bump_ads_id_seq s in
      match text_param p1, text_param p2, text_param p3 with
      | Some client_name, Some email, Some plan =>
          if decide (id ∈ ad_id <$> ads s) then (s1, QError UniqueViolation)
          else
            let row :=
              {| ad_id := id;
                 ad_client_name := client_name;
                 ad_email := email;
                 ad_plan := plan;
                 ad_amount := amount;
                 ad_status := Some "pending";
                 ad_date_submitted := Some now;
                 ad_receipt_image := text_param p5;
                 ad_ad_image := text_param p6;
                 ad_ad_content := text_param p7;
                 ad_ad_url := text_param p8;
                 ad_ad_headline := text_param p9;
                 ad_ad_content_file := text_param p10 |} in
            (set_ads (ads s ++ [row]) s1, QRows [row])
      | _, _, _ => (s1, QError NotNullViolation)
      end
  | None => (s, QError InvalidTextRepresentation)
  end.

(** [SELECT * FROM ads WHERE status = 'active'] *)
Definition select_active_ads (s : store) : list ad :=
  filter (fun a => ad_status a = Some "active") (ads s).

(** [SELECT * FROM ads ORDER BY date_submitted DESC] *)
Definition select_all_ads (s : store) : list ad :=
  order_by_desc ad_date_submitted (ads s).

Definition activate_row (a : ad) : ad :=
  {| ad_id := ad_id a;
     ad_client_name := ad_client_name a;
     ad_email := ad_email a;
     ad_plan := ad_plan a;
     ad_amount := ad_amount a;
     ad_status := Some "active";
     ad_date_submitted := ad_date_submitted a;
     ad_receipt_image := ad_receipt_image a;
     ad_ad_image := ad_ad_image a;
     ad_ad_content := ad_ad_content a;
     ad_ad_url := ad_ad_url a;
     ad_ad_headline := ad_ad_headline a;
     ad_ad_content_file := ad_ad_content_file a |}.

(** [UPDATE ads SET status = 'active' WHERE id = $1 RETURNING *] *)
Definition update_ad_approve (p1 : jsval) (s : store) : store * qresult ad :=
  match int4_param p1 with
  | Some k =>
      let hit := fun a => id_is k (ad_id a) in
      (set_ads (update_where hit activate_row (ads s)) s,
       QRows (activate_row <$> filter hit (ads s)))
  | None => (s, QError InvalidTextRepresentation)
  end.

(** [DELETE FROM ads WHERE id = $1] *)
Definition delete_ad (p1 : jsval) (s : store) : store * qresult ad :=
  match int4_param p1 with
  | Some k =>
      (set_ads (filter (fun a => ¬ id_is k (ad_id a)) (ads s)) s, QRows [])
  | None => (s, QError InvalidTextRepresentation)
  end.

(** [article_id INTEGER REFERENCES articles(id)]: a NULL reference is
    not checked. *)
Definition fk_article (s : store) (k : option Z) : Prop :=
  match k with
  | None => True
  | Some id => id ∈ art_id <$> articles s
  end.

Global Instance fk_article_dec s k : Decision (fk_article s k).
Proof. destruct k; simpl; apply _. Defined.

(** [INSERT INTO comments (article_id, author, email, content)
    VALUES ($1, $2, $3, $4) RETURNING *] *)
Definition insert_comment (now : Z) (p1 p2 p3 p4 : jsval) (s : store)
  : store * qresult comment :=
  match int4_param p1 with
  | Some article_id =>
      let id := comments_id_seq s in
      let s1 := bump_comments_id_seq s in
      match text_param p2, text_param p3, text_param p4 with
      | Some author, Some email, Some content =>
          if decide (id ∈ cm_id <$> comments s)
          then (s1, QError UniqueViolation)
          else if decide (fk_article s article_id) then
            let row :=
              {| cm_id := id;
                 cm_article_id := article_id;
                 cm_author := author;
                 cm_email := email;
                 cm_content := content;
                 cm_date := Some now |} in
            (set_comments (comments s ++ [row]) s1, QRows [row])
          else (s1, QError ForeignKeyViolation)
      | _, _, _ => (s1, QError NotNullViolation)
      end
  | None => (s, QError InvalidTextRepresentation)
  end.

(** [SELECT * FROM comments WHERE article_id = $1 ORDER BY date DESC] *)
Definition select_comments (p1 : jsval) (s : store) : qresult comment :=
  match int4_param p1 with
  | Some k =>
      QRows (order_by_desc cm_date
               (filter (fun c => k ≠ None ∧ cm_article_id c = k)
                  (comments s)))
  | None => QError InvalidTextRepresentation
  end.

(** [INSERT INTO support_messages (name, email, subject, message)
    VALUES ($1, $2, $3, $4)] *)
Definition insert_support_message (now : Z) (p1 p2 p3 p4 : jsval) (s : store)
  : store * qresult support_message :=
  let id := support_messages_id_seq s in
  let s1 := bump_support_messages_id_seq s in
  match text_param p1, text_param p2, text_param p4 with
  | Some name, Some email, Some message =>
      if decide (id ∈ sm_id <$> support_messages s)
      then (s1, QError UniqueViolation)
      else
        let row :=
          {| sm_id := id;
             sm_name := name;
             sm_email := email;
             sm_subject := text_param p3;
             sm_message := message;
             sm_date := Some now;
             sm_status := Some "unread" |} in
        (set_support_messages (support_messages s ++ [row]) s1, QRows [])
  | _, _, _ => (s1, QError NotNullViolation)
  end.

(** [SELECT * FROM support_messages ORDER BY date DESC] *)
Definition select_support_messages (s : store) : list support_message :=
  order_by_desc sm_date (support_messages s).

(** ** Responses *)

(** The ad as the API shows it, columns renamed to camelCase. *)
Record ad_view : Type := {
  adv_id : Z;
  adv_clientName : string;
  adv_email : string;
  adv_plan : string;
  adv_amount : option Z;
  adv_status : option string;
  adv_dateSubmitted : option Z;
  adv_receiptImage : option string;
  adv_adImage : option string;
  adv_adContent : option string;
  adv_adUrl : option string;
  adv_adHeadline : option string;
  adv_adContentFile : option string
}.

Record comment_view : Type := {
  cv_id : Z;
  cv_articleId : option Z;
  cv_author : string;
  cv_email : string;
  cv_content : string;
  cv_date : option Z
}.

Definition map_ad (a : ad) : ad_view :=
  {| adv_id := ad_id a;
     adv_clientName := ad_client_name a;
     adv_email := ad_email a;
     adv_plan := ad_plan a;
     adv_amount := ad_amount a;
     adv_status := ad_status a;
     adv_dateSubmitted := ad_date_submitted a;
     adv_receiptImage := ad_receipt_image a;
     adv_adImage := ad_ad_image a;
     adv_adContent := ad_ad_content a;
     adv_adUrl := ad_ad_url a;
     adv_adHeadline := ad_ad_headline a;
     adv_adContentFile := ad_ad_content_file a |}.

Definition map_comment (c : comment) : comment_view :=
  {| cv_id := cm_id c;
     cv_articleId := cm_article_id c;
     cv_author := cm_author c;
     cv_email := cm_email c;
     cv_content := cm_content c;
     cv_date := cm_date c |}.

Inductive json_body : Type :=
  | Message (m : string)          (* [{ message: "..." }], a fixed text *)
  | ErrorMessage (e : pg_error)   (* [{ message: err.message }] *)
  | ErrorReport (e : pg_error)    (* [{ message: err.message, error: {} }] *)
  | ArticleRow (a : article)
  | ArticleRows (l : list article)
  | AdRow (a : ad)
  | AdViews (l : list ad_view)
  | CommentRow (c : comment)
  | CommentViews (l : list comment_view)
  | SupportRow (m : support_message)
  | SupportRows (l : list support_message)
  | NoRow.                        (* [res.json(undefined)] *)

Record response : Type := {
  res_status : Z;
  res_body : json_body
}.

(** [res.json(b)] *)
Definition json (b : json_body) : response :=
  {| res_status := 200; res_body := b |}.

(** [res.status(n).json(b)] *)
Definition status_json (n : Z) (b : json_body) : response :=
  {| res_status := n; res_body := b |}.

(** [result.rows[0]] as a response body. *)
Definition first_row {A} (wrap : A → json_body) (rows : list A) : json_body :=
  match rows with
  | r :: _ => wrap r
  | [] => NoRow
  end.

(** The global error handler, reached through [asyncHandler]: the store's
    errors carry no [status], so the response is a 500. *)
Definition globalErrorHandler (e : pg_error) : response :=
  status_json 500 (ErrorReport e).

(** ** The route handlers *)

(** 1. [GET /api/articles] *)
Definition getArticles (s : store) : store * response :=
  (s, json (ArticleRows (select_published_articles s))).

(** 2. [POST /api/articles] *)
Definition postArticle (now : Z) (body : gmap string jsval) (s : store)
  : store * response :=
  let title := field body "title" in
  let subHeadline := field body "subHeadline" in
  let category := field body "category" in
  let author := field body "author" in
  let image := field body "image" in
  let excerpt := field body "excerpt" in
  let content := field body "content" in
  let status := field body "status" in
  if negb (truthy title) || negb (truthy category) || negb (truthy content)
  then
    (s, status_json 400 (Message "Title, category, and content are required"))
  else
    let finalStatus := js_or status (JStr "pending") in
    match
      insert_article now title (js_or subHeadline (JStr "")) category
        (js_or author (JStr "Citizen Reporter")) image excerpt content
        finalStatus s
    with
    | (s', QRows rows) => (s', status_json 201 (first_row ArticleRow rows))
    | (s', QError e) => (s', globalErrorHandler e)
    end.

(** 3. [GET /api/admin/pending-articles] *)
Definition getPendingArticles (s : store) : store * response :=
  (s, json (ArticleRows (select_pending_articles s))).

(** 4. [PATCH /api/admin/articles/:id/approve] *)
Definition approveArticle (now : Z) (id : string) (body : gmap string jsval)
    (s : store) : store * response :=
  let isBreaking := field body "isBreaking" in
  match
    update_article_approve now (js_or isBreaking (JBool false)) (JStr id) s
  with
  | (s', QRows rows) =>
      if decide (length rows = 0%nat)
      then (s', status_json 404 (Message "Article not found"))
      else (s', json (first_row ArticleRow rows))
  | (s', QError e) => (s', globalErrorHandler e)
  end.

(** 5. [PUT /api/articles/:id] *)
Definition putArticle (id : string) (body : gmap string jsval) (s : store)
  : store * response :=
  let title := field body "title" in
  let subHeadline := field body "subHeadline" in
  let category := field body "category" in
  let author := field body "author" in
  let image := field body "image" in
  let content := field body "content" in
  let isBreaking := field body "isBreaking" in
  match
    update_article title subHeadline category author image content
      isBreaking (JStr id) s
  with
  | (s', QRows rows) =>
      if decide (length rows = 0%nat)
      then (s', status_json 404 (Message "Article not found"))
      else (s', json (first_row ArticleRow rows))
  | (s', QError e) => (s', globalErrorHandler e)
  end.

(** 6. [DELETE /api/articles/:id] *)
Definition deleteArticle (id : string) (s : store) : store * response :=
  match delete_article (JStr id) s with
  | (s', QRows _) => (s', json (Message "Article deleted successfully"))
  | (s', QError e) => (s', globalErrorHandler e)
  end.

(** 7. [POST /api/ads] *)
Definition postAd (now : Z) (body : gmap string jsval) (s : store)
  : store * response :=
  let clientName := field body "clientName" in
  let email := field body "email" in
  let plan := field body "plan" in
  let amount := field body "amount" in
  let receiptImage := field body "receiptImage" in
  let adImage := field body "adImage" in
  let adContent := field body "adContent" in
  let adUrl := field body "adUrl" in
  let adHeadline := field body "adHeadline" in
  let adContentFile := field body "adContentFile" in
  if negb (truthy clientName) || negb (truthy email) || negb (truthy plan)
  then
    (s, status_json 400 (Message "Client name, email, and plan are required"))
  else
    match
      insert_ad now clientName email plan amount receiptImage adImage
        adContent adUrl adHeadline adContentFile s
    with
    | (s', QRows rows) => (s', status_json 201 (first_row AdRow rows))
    | (s', QError e) => (s', globalErrorHandler e)
    end.

(** 8. [GET /api/ads/active] *)
Definition getActiveAds (s : store) : store * response :=
  (s, json (AdViews (map_ad <$> select_active_ads s))).

(** 8b. [GET /api/admin/ads] *)
Definition getAdminAds (s : store) : store * response :=
  (s, json (AdViews (map_ad <$> select_all_ads s))).

(** 9. [PATCH /api/admin/ads/:id/approve] *)
Definition approveAd (id : string) (s : store) : store * response :=
  match update_ad_approve (JStr id) s with
  | (s', QRows rows) =>
      if decide (length rows = 0%nat)
      then (s', status_json 404 (Message "Ad not found"))
      else (s', json (first_row AdRow rows))
  | (s', QError e) => (s', status_json 500 (ErrorMessage e))
  end.

(** 9b. [DELETE /api/ads/:id] *)
Definition deleteAd (id : string) (s : store) : store * response :=
  match delete_ad (JStr id) s with
  | (s', QRows _) => (s', json (Message "Ad deleted successfully"))
  | (s', QError e) => (s', status_json 500 (ErrorMessage e))
  end.

(** 10. [POST /api/comments] *)
Definition postComment (now : Z) (body : gmap string jsval) (s : store)
  : store * response :=
  let articleId := field body "articleId" in
  let author := field body "author" in
  let email := field body "email" in
  let content := field body "content" in
  match insert_comment now articleId author email content s with
  | (s', QRows rows) => (s', status_json 201 (first_row CommentRow rows))
  | (s', QError e) => (s', status_json 400 (ErrorMessage e))
  end.

(** 11. [GET /api/articles/:id/comments] *)
Definition getComments (id : string) (s : store) : store * response :=
  match select_comments (JStr id) s with
  | QRows rows => (s, json (CommentViews (map_comment <$> rows)))
  | QError e => (s, status_json 500 (ErrorMessage e))
  end.

(** 12. [POST /api/support] *)
Definition postSupport (now : Z) (body : gmap string jsval) (s : store)
  : store * response :=
  let name := field body "name" in
  let email := field body "email" in
  let subject := field body "subject" in
  let message := field body "message" in
  match insert_support_message now name email subject message s with
  | (s', QRows _) => (s', status_json 201 (Message "Support message sent"))
  | (s', QError e) => (s', status_json 400 (ErrorMessage e))
  end.

(** 13. [GET /api/admin/support] *)
Definition getSupport (s : store) : store * response :=
  (s, json (SupportRows (select_support_messages s))).

(** ** The API as a transition system *)

Inductive request : Type :=
  | GetArticles
  | PostArticle (body : gmap string jsval)
  | GetPendingArticles
  | ApproveArticle (id : string) (body : gmap string jsval)
  | PutArticle (id : string) (body : gmap string jsval)
  | DeleteArticle (id : string)
  | PostAd (body : gmap string jsval)
  | GetActiveAds
  | GetAdminAds
  | ApproveAd (id : string)
  | DeleteAd (id : string)
  | PostComment (body : gmap string jsval)
  | GetComments (id : string)
  | PostSupport (body : gmap string jsval)
  | GetSupport.

(** The router: one request, handled at time [now]. *)
Definition handle (now : Z) (r : request) (s : store) : store * response :=
  match r with
  | GetArticles => getArticles s
  | PostArticle body => postArticle now body s
  | GetPendingArticles => getPendingArticles s
  | ApproveArticle id body => approveArticle now id body s
  | PutArticle id body => putArticle id body s
  | DeleteArticle id => deleteArticle id s
  | PostAd body => postAd now body s
  | GetActiveAds => getActiveAds s
  | GetAdminAds => getAdminAds s
  | ApproveAd id => approveAd id s
  | DeleteAd id => deleteAd id s
  | PostComment body => postComment now body s
  | GetComments id => getComments id s
  | PostSupport body => postSupport now body s
  | GetSupport => getSupport s
  end.

(** The store after a sequence of requests, each with its time. *)
Fixpoint run (reqs : list (Z * request)) (s : store) : store :=
  match reqs with
  | [] => s
  | (now, r) :: rest => run rest (handle now r s).1
  end.

(** A request body from its key-value pairs. *)
Definition body_of (kvs : list (string * jsval)) : gmap string jsval :=
  list_to_map kvs.

(** ** Invariants of the store

    What the schema enforces on every table, and what holds of every store
    the API builds from an empty database: the sequence of a table is ahead
    of the ids in use. *)

Definition table_ok {A} (id : A → Z) (rows : list A) (next : Z) : Prop :=
  NoDup (id <$> rows) ∧ Forall (fun r => id r < next) rows.

(** No comment references an article that is not there. *)
Definition no_orphans (s : store) : Prop :=
  Forall (fun c => fk_article s (cm_article_id c)) (comments s).

Definition wf_store (s : store) : Prop :=
  table_ok art_id (articles s) (articles_id_seq s)
  ∧ table_ok ad_id (ads s) (ads_id_seq s)
  ∧ table_ok cm_id (comments s) (comments_id_seq s)
  ∧ table_ok sm_id (support_messages s) (support_messages_id_seq s)
  ∧ Forall (fun a => status_check article_statuses (art_status a))
      (articles s)
  ∧ Forall (fun a => status_check ad_statuses (ad_status a)) (ads s)
  ∧ no_orphans s.

Global Instance wf_store_dec s : Decision (wf_store s).
Proof. unfold wf_store, table_ok, no_orphans. apply _. Defined.

(** ** Properties the claims speak of *)

(** A status either stays or moves to [target]. *)
Definition stays_or_becomes (target : string) (before after : option string)
  : Prop :=
  after = before ∨ after = Some target.

(** How a table with a status column may differ between an earlier and a
    later store: the sequence has not gone back, and every later row either
    is a new one, its id drawn from the sequence, or continues an earlier
    row whose status stayed or moved to [target]. *)
Definition status_history {A} (id : A → Z) (status : A → option string)
    (target : string) (rows : list A) (next : Z) (rows' : list A) (next' : Z)
  : Prop :=
  next <= next'
  ∧ ∀ r', r' ∈ rows' →
          (∃ r, r ∈ rows ∧ id r = id r'
                ∧ stays_or_becomes target (status r) (status r'))
          ∨ next <= id r'.

Definition articles_history (s s' : store) : Prop :=
  status_history art_id art_status "published"
    (articles s) (articles_id_seq s) (articles s') (articles_id_seq s').

Definition ads_history (s s' : store) : Prop :=
  status_history ad_id ad_status "active"
    (ads s) (ads_id_seq s) (ads s') (ads_id_seq s').

(** The body of a response is the record the request added to the store. *)
Definition created_record (s s' : store) (b : json_body) : Prop :=
  (∃ a, b = ArticleRow a ∧ articles s' = articles s ++ [a])
  ∨ (∃ a, b = AdRow a ∧ ads s' = ads s ++ [a])
  ∨ (∃ c, b = CommentRow c ∧ comments s' = comments s ++ [c])
  ∨ (∃ m, b = SupportRow m ∧ support_messages s' = support_messages s ++ [m]).

(** An article that entered the table with no status, as rows written
    before the status column had its default did. *)
Definition legacy_article : article :=
  {| art_id := 1; art_title := "Old"; art_category := "News";
     art_author := Some "Citizen Reporter"; art_date := Some 10;
     art_image := None; art_excerpt := None; art_content := Some "Text";
     art_views := Some 0; art_status := None;
     art_is_breaking := Some false; art_sub_headline := None |}.

Definition legacy_store : store :=
  bump_articles_id_seq (set_articles [legacy_article] init_store).

(** ** Sample requests and a sample store, for the worked cases *)

Definition article_body : gmap string jsval :=
  body_of [("title", JStr "T"); ("category", JStr "News");
           ("content", JStr "C")].

Definition comment_body : gmap string jsval :=
  body_of [("articleId", JNum 1); ("author", JStr "Ann");
           ("email", JStr "ann@example.org"); ("content", JStr "Well said")].

Definition ad_body : gmap string jsval :=
  body_of [("clientName", JStr "Acme"); ("email", JStr "ads@acme.example");
           ("plan", JStr "weekly"); ("amount", JNum 50)].

Definition support_body : gmap string jsval :=
  body_of [("name", JStr "Bob"); ("email", JStr "bob@example.org");
           ("message", JStr "Help")].

(** One pending article, one comment on it, one pending ad. *)
Definition sample_store : store :=
  run [(100, PostArticle article_body); (110, PostComment comment_body);
       (120, PostAd ad_body)] init_store.

Definition sample_article : article :=
  {| art_id := 1; art_title := "T"; art_category := "News";
     art_author := Some "Citizen Reporter"; art_date := Some 100;
     art_image := None; art_excerpt := None; art_content := Some "C";
     art_views := Some 0; art_status := Some "pending";
     art_is_breaking := Some false; art_sub_headline := Some "" |}.

Definition sample_ad : ad :=
  {| ad_id := 1; ad_client_name := "Acme"; ad_email := "ads@acme.example";
     ad_plan := "weekly"; ad_amount := Some 50; ad_status := Some "pending";
     ad_date_submitted := Some 120; ad_receipt_image := None;
     ad_ad_image := None; ad_ad_content := None; ad_ad_url := None;
     ad_ad_headline := None; ad_ad_content_file := None |}.

Definition sample_comment : comment :=
  {| cm_id := 1; cm_article_id := Some 1; cm_author := "Ann";
     cm_email := "ann@example.org"; cm_content := "Well said";
     cm_date := Some 110 |}.

(** ** Proof automation *)

Create HintDb wf.

(** A handler that runs one statement leaves the store that statement
    leaves: an invariant the statement keeps is kept by the handler. *)
Ltac statement_case P lem :=
  lazymatch goal with
  | |- context [match ?q with pair _ _ => _ end] =>
      let H := fresh "Hq" in
      assert (H : P q.1) by (apply lem; assumption);
      destruct q as [? [?|?]]; simpl in H |- *;
      repeat case_decide; simpl; try exact H
  end.

(** The branches of a statement, each against the parts of [wf_store]. *)
Ltac wf_statement :=
  repeat case_decide; simpl in *;
  unfold wf_store; simpl; split_and!; eauto with wf.

(** The branches of a statement, each against the two histories. *)
Ltac history_statement :=
  unfold articles_history, ads_history;
  repeat case_decide; simpl; eauto with wf.

(** Every branch of every handler, down to the statement it runs. *)
Ltac handler_cases :=
  unfold postArticle, approveArticle, putArticle, deleteArticle, postAd,
    approveAd, deleteAd, postComment, getComments, postSupport,
    insert_article, update_article_approve, update_article, delete_article,
    insert_ad, update_ad_approve, delete_ad, insert_comment, select_comments,
    insert_support_message;
  repeat case_match; simplify_eq; simpl.

(** * Theorems *)

(** ** Worked requests *)

Example post_article_example :
  (postArticle 100 article_body init_store).2
  = status_json 201 (ArticleRow sample_article).
Proof. vm_compute. reflexivity. Qed.

Example int4_in_examples :
  int4_in "12" = Some 12 ∧ int4_in " -7 " = Some (-7) ∧ int4_in "abc" = None
  ∧ int4_in "" = None ∧ int4_in "2147483648" = None
  ∧ int4_in "-2147483648" = Some (-2147483648).
Proof. vm_compute. repeat split; reflexivity. Qed.

Example bool_in_examples :
  bool_in "true" = Some true ∧ bool_in "false" = Some false
  ∧ bool_in "YES" = Some true ∧ bool_in " off " = Some false
  ∧ bool_in "o" = None ∧ bool_in "maybe" = None.
Proof. vm_compute. repeat split; reflexivity. Qed.

Lemma init_store_wf : wf_store init_store.
Proof. apply (bool_decide_unpack _). vm_compute. exact I. Qed.

Lemma legacy_store_wf : wf_store legacy_store.
Proof. apply (bool_decide_unpack _). vm_compute. exact I. Qed.

Lemma sample_store_wf : wf_store sample_store.
Proof. apply (bool_decide_unpack _). vm_compute. exact I. Qed.

Example sample_store_tables :
  articles sample_store = [sample_article]
  ∧ comments sample_store = [sample_comment]
  ∧ ads sample_store = [sample_ad].
Proof. vm_compute. repeat split; reflexivity. Qed.

(** ** Sorting *)

Section Ordering.
Context {A : Type} (date : A → option Z).

Global Instance by_date_desc_trans : Transitive (by_date_desc date).
Proof.
  intros x y z. unfold by_date_desc.
  destruct (date x), (date y), (date z); simpl; try tauto; lia.
Qed.

Global Instance by_date_desc_total : Total (by_date_desc date).
Proof.
  intros x y. unfold by_date_desc.
  destruct (date x), (date y); simpl; try tauto; lia.
Qed.

Lemma order_by_desc_perm (rows : list A) : order_by_desc date rows ≡ₚ rows.
Proof. apply merge_sort_Permutation. Qed.

Lemma order_by_desc_sorted (rows : list A) :
  StronglySorted (by_date_desc date) (order_by_desc date rows).
Proof. apply StronglySorted_merge_sort; apply _. Qed.

Lemma elem_of_order_by_desc (rows : list A) (r : A) :
  r ∈ order_by_desc date rows ↔ r ∈ rows.
Proof. by rewrite order_by_desc_perm. Qed.
End Ordering.

(** ** Listing the published articles *)

(** C1, as the code has it: the public listing leaves the store as it is
    and answers 200 with the articles whose status is published or NULL,
    and no other, each as often as the table holds it, ordered by date,
    latest first (an article without a date before all others). *)
Theorem getArticles_published_or_null (s : store) :
  (getArticles s).1 = s
  ∧ ∃ rows,
      (getArticles s).2 = json (ArticleRows rows)
      ∧ rows ≡ₚ filter published_or_null (articles s)
      ∧ StronglySorted (by_date_desc art_date) rows
      ∧ ∀ a, a ∈ rows ↔
             a ∈ articles s
             ∧ (art_status a = Some "published" ∨ art_status a = None).
Proof.
  split; [reflexivity|].
  exists (select_published_articles s). unfold select_published_articles.
  split; [reflexivity|]. split; [apply order_by_desc_perm|].
  split; [apply order_by_desc_sorted|].
  intros a. rewrite elem_of_order_by_desc, list_elem_of_filter.
  unfold published_or_null. tauto.
Qed.

(** C1 as stated fails: an article without a status is listed among the
    published ones. *)
Lemma getArticles_lists_null_status :
  wf_store legacy_store
  ∧ (getArticles legacy_store).2 = json (ArticleRows [legacy_article])
  ∧ art_status legacy_article ≠ Some "published".
Proof.
  split; [apply legacy_store_wf|]. split; [vm_compute; reflexivity|].
  discriminate.
Qed.

(** Where every article has a status, the listing is the published
    articles. *)
Lemma select_published_with_status (s : store) :
  Forall (fun a => art_status a ≠ None) (articles s) →
  select_published_articles s
  ≡ₚ filter (fun a => art_status a = Some "published") (articles s).
Proof.
  intros Hall. unfold select_published_articles.
  rewrite order_by_desc_perm.
  induction Hall as [|a l Ha Hl IH]; [reflexivity|].
  rewrite !filter_cons. unfold published_or_null at 1.
  repeat case_decide; try tauto; by rewrite IH.
Qed.

(** ** Request bodies and parameters *)

Lemma field_missing (body : gmap string jsval) (k : string) :
  body !! k = None → field body k = JUndefined.
Proof. intros H. unfold field. by rewrite H. Qed.

Lemma field_present (body : gmap string jsval) (k : string) (v : jsval) :
  body !! k = Some v → field body k = v.
Proof. intros H. unfold field. by rewrite H. Qed.

Lemma truthy_text_param (v : jsval) :
  truthy v = true → ∃ t, text_param v = Some t.
Proof. destruct v; simpl; intros H; try discriminate; eauto. Qed.

Lemma int4_param_route (id : string) (k : Z) :
  int4_in id = Some k → int4_param (JStr id) = Some (Some k).
Proof. intros H. unfold int4_param, typed_param. simpl. by rewrite H. Qed.

(** ** The required fields of a submission *)

Lemma postArticle_falsy (now : Z) (body : gmap string jsval) (s : store) :
  truthy (field body "title") = false
  ∨ truthy (field body "category") = false
  ∨ truthy (field body "content") = false →
  postArticle now body s
  = (s, status_json 400 (Message "Title, category, and content are required")).
Proof.
  intros H. unfold postArticle.
  destruct H as [-> | [-> | ->]]; simpl; [done| |].
  - by rewrite orb_true_r.
  - by rewrite orb_true_r.
Qed.

Lemma postAd_falsy (now : Z) (body : gmap string jsval) (s : store) :
  truthy (field body "clientName") = false
  ∨ truthy (field body "email") = false
  ∨ truthy (field body "plan") = false →
  postAd now body s
  = (s, status_json 400 (Message "Client name, email, and plan are required")).
Proof.
  intros H. unfold postAd.
  destruct H as [-> | [-> | ->]]; simpl; [done| |].
  - by rewrite orb_true_r.
  - by rewrite orb_true_r.
Qed.

(** C8: a submitted ad whose body lacks [plan], [clientName] or [email] is
    answered 400, and the store is the one before the request: no ad is
    created. *)
Theorem postAd_missing_field (now : Z) (body : gmap string jsval)
    (s : store) :
  body !! "plan" = None ∨ body !! "clientName" = None
  ∨ body !! "email" = None →
  postAd now body s
  = (s, status_json 400 (Message "Client name, email, and plan are required")).
Proof.
  intros H. apply postAd_falsy.
  destruct H as [H | [H | H]]; apply field_missing in H; rewrite H; auto.
Qed.

Lemma postAd_missing_field_witness :
  postAd 5 (body_of [("clientName", JStr "Acme"); ("email", JStr "a@b.c")])
    init_store
  = (init_store,
     status_json 400 (Message "Client name, email, and plan are required")).
Proof. apply postAd_missing_field. left. vm_compute. reflexivity. Defined.

(** C10: an empty string in a required field counts as a missing field.
    A submitted article whose [title], [category] or [content] is the empty
    string, and a submitted ad whose [clientName], [email] or [plan] is,
    are answered 400 and leave the store as it was, though the body holds
    the field. *)
Theorem empty_string_is_missing (now : Z) (body : gmap string jsval)
    (s : store) :
  (body !! "title" = Some (JStr "") ∨ body !! "category" = Some (JStr "")
   ∨ body !! "content" = Some (JStr "") →
   postArticle now body s
   = (s, status_json 400
           (Message "Title, category, and content are required")))
  ∧ (body !! "clientName" = Some (JStr "") ∨ body !! "email" = Some (JStr "")
     ∨ body !! "plan" = Some (JStr "") →
     postAd now body s
     = (s, status_json 400
             (Message "Client name, email, and plan are required"))).
Proof.
  split; intros H.
  - apply postArticle_falsy.
    destruct H as [H | [H | H]]; apply field_present in H; rewrite H; auto.
  - apply postAd_falsy.
    destruct H as [H | [H | H]]; apply field_present in H; rewrite H; auto.
Qed.

Lemma empty_string_is_missing_witness :
  postArticle 5
    (body_of [("title", JStr ""); ("category", JStr "News");
              ("content", JStr "C")]) init_store
  = (init_store,
     status_json 400 (Message "Title, category, and content are required"))
  ∧ postAd 5
      (body_of [("clientName", JStr "Acme"); ("email", JStr "a@b.c");
                ("plan", JStr "")]) init_store
    = (init_store,
       status_json 400 (Message "Client name, email, and plan are required")).
Proof.
  split.
  - apply empty_string_is_missing. left. vm_compute. reflexivity.
  - apply empty_string_is_missing. right. right. vm_compute. reflexivity.
Defined.

(** ** Tables: rows found by id, rewritten, added and removed *)

Section Tables.
Context {A : Type} (id : A → Z).

Lemma update_where_ids (hit : A → Prop) `{!∀ a, Decision (hit a)}
    (upd : A → A) (rows : list A) :
  (∀ a, id (upd a) = id a) →
  id <$> update_where hit upd rows = id <$> rows.
Proof.
  intros Hid. unfold update_where. rewrite <- list_fmap_compose.
  apply list_fmap_ext. intros i a _. simpl. by case_decide.
Qed.

Lemma elem_of_update_where (hit : A → Prop) `{!∀ a, Decision (hit a)}
    (upd : A → A) (rows : list A) (b : A) :
  b ∈ update_where hit upd rows ↔
  ∃ a, a ∈ rows ∧ b = if decide (hit a) then upd a else a.
Proof.
  unfold update_where. rewrite list_elem_of_fmap.
  split; intros (a & H1 & H2); exists a; done.
Qed.

Lemma update_where_idem (hit : A → Prop) `{!∀ a, Decision (hit a)}
    (upd : A → A) (rows : list A) :
  (∀ a, hit a → upd (upd a) = upd a) →
  update_where hit upd (update_where hit upd rows)
  = update_where hit upd rows.
Proof.
  intros Hupd. unfold update_where. rewrite <- list_fmap_compose.
  apply list_fmap_ext. intros i a _. simpl.
  destruct (decide (hit a)) as [Ha|Ha].
  - case_decide; [by apply Hupd|done].
  - by rewrite decide_False.
Qed.

Lemma filter_update_where (hit : A → Prop) `{!∀ a, Decision (hit a)}
    (upd : A → A) (rows : list A) :
  (∀ a, hit a → hit (upd a)) →
  filter hit (update_where hit upd rows) = upd <$> filter hit rows.
Proof.
  intros Hhit. unfold update_where.
  induction rows as [|a rows IH]; [done|].
  rewrite fmap_cons, !filter_cons.
  destruct (decide (hit a)) as [Ha|Ha].
  - rewrite decide_True by auto. by rewrite fmap_cons, IH.
  - by rewrite decide_False.
Qed.

Lemma filter_id_none (k : Z) (rows : list A) :
  (∀ a, a ∈ rows → id a ≠ k) →
  filter (fun a => id_is (Some k) (id a)) rows = [].
Proof.
  intros Hno. induction rows as [|a rows IH]; [done|].
  rewrite filter_cons, decide_False.
  - apply IH. intros b Hb. apply Hno. by right.
  - unfold id_is. intros [= Heq]. by apply (Hno a); [left|].
Qed.

Lemma filter_id_unique (a : A) (rows : list A) :
  NoDup (id <$> rows) → a ∈ rows →
  filter (fun r => id_is (Some (id a)) (id r)) rows = [a].
Proof.
  induction rows as [|b rows IH]; intros Hnd Ha.
  - by apply elem_of_nil in Ha.
  - rewrite fmap_cons in Hnd. apply NoDup_cons in Hnd as [Hb Hnd].
    rewrite filter_cons. apply elem_of_cons in Ha as [<- | Ha].
    + rewrite decide_True by done. f_equal.
      apply filter_id_none. intros c Hc Heq. apply Hb.
      rewrite <- Heq. by apply list_elem_of_fmap_2.
    + rewrite decide_False; [by apply IH|].
      unfold id_is. intros [= Heq]. apply Hb. rewrite <- Heq.
      by apply list_elem_of_fmap_2.
Qed.

Lemma same_id_same_row (a b : A) (rows : list A) :
  NoDup (id <$> rows) → a ∈ rows → b ∈ rows → id a = id b → a = b.
Proof.
  intros Hnd Ha Hb Heq.
  pose proof (filter_id_unique a rows Hnd Ha) as Hfa.
  pose proof (filter_id_unique b rows Hnd Hb) as Hfb.
  rewrite Heq, Hfb in Hfa. by injection Hfa.
Qed.

Lemma table_ok_fresh (rows : list A) (next : Z) :
  table_ok id rows next → next ∉ id <$> rows.
Proof.
  intros [_ Hlt] Hin. apply list_elem_of_fmap in Hin as (a & -> & Ha).
  rewrite Forall_forall in Hlt. specialize (Hlt a Ha). lia.
Qed.

Lemma table_ok_bump (rows : list A) (next : Z) :
  table_ok id rows next → table_ok id rows (next + 1).
Proof.
  intros [Hnd Hlt]. split; [done|].
  eapply Forall_impl; [exact Hlt|]. intros a Ha. simpl in *. lia.
Qed.

Lemma table_ok_insert (rows : list A) (next : Z) (r : A) :
  table_ok id rows next → id r = next →
  table_ok id (rows ++ [r]) (next + 1).
Proof.
  intros Hok Hr. pose proof (table_ok_fresh _ _ Hok) as Hfresh.
  destruct Hok as [Hnd Hlt]. split.
  - rewrite fmap_app. apply NoDup_app. split; [done|]. split.
    + intros x Hx Hx'. simpl in Hx'. apply list_elem_of_singleton in Hx'.
      subst x. by rewrite Hr in Hx.
    + simpl. apply NoDup_singleton.
  - apply Forall_app. split.
    + eapply Forall_impl; [exact Hlt|]. intros a Ha. simpl in *. lia.
    + apply Forall_singleton. lia.
Qed.

Lemma table_ok_update (hit : A → Prop) `{!∀ a, Decision (hit a)}
    (upd : A → A) (rows : list A) (next : Z) :
  (∀ a, id (upd a) = id a) →
  table_ok id rows next → table_ok id (update_where hit upd rows) next.
Proof.
  intros Hid [Hnd Hlt]. split.
  - by rewrite update_where_ids.
  - rewrite Forall_forall. intros b Hb.
    apply elem_of_update_where in Hb as (a & Ha & ->).
    rewrite Forall_forall in Hlt. specialize (Hlt a Ha).
    case_decide; [rewrite Hid|]; done.
Qed.

Lemma table_ok_filter (P : A → Prop) `{!∀ a, Decision (P a)}
    (rows : list A) (next : Z) :
  table_ok id rows next → table_ok id (filter P rows) next.
Proof.
  intros [Hnd Hlt]. split.
  - apply (NoDup_fmap_2_strong id); [|by apply NoDup_filter, (NoDup_fmap_1 id)].
    intros x y Hx Hy Heq.
    apply list_elem_of_filter in Hx as [_ Hx].
    apply list_elem_of_filter in Hy as [_ Hy].
    clear -Hnd Hx Hy Heq. revert Hnd Hx Hy.
    induction rows as [|c rows IH]; intros Hnd Hx Hy.
    + by apply elem_of_nil in Hx.
    + rewrite fmap_cons in Hnd. apply NoDup_cons in Hnd as [Hc Hnd].
      apply elem_of_cons in Hx as [-> | Hx];
        apply elem_of_cons in Hy as [-> | Hy]; [done| | |by apply IH].
      * exfalso. apply Hc. rewrite Heq. by apply list_elem_of_fmap_2.
      * exfalso. apply Hc. rewrite <- Heq. by apply list_elem_of_fmap_2.
  - rewrite Forall_forall in Hlt. rewrite Forall_forall. intros a Ha.
    apply list_elem_of_filter in Ha as [_ Ha]. by apply Hlt.
Qed.
End Tables.

(** ** Approving an ad *)

Lemma update_ad_approve_idem (p : jsval) (s : store) :
  update_ad_approve p (update_ad_approve p s).1 = update_ad_approve p s.
Proof.
  unfold update_ad_approve. destruct (int4_param p) as [k|]; [|done].
  simpl. f_equal.
  - unfold set_ads. simpl. f_equal. by apply update_where_idem.
  - f_equal. rewrite filter_update_where by done.
    rewrite <- list_fmap_compose. by apply list_fmap_ext.
Qed.

Lemma approveAd_existing (id : string) (k : Z) (a : ad) (s : store) :
  NoDup (ad_id <$> ads s) → int4_in id = Some k → a ∈ ads s → ad_id a = k →
  approveAd id s
  = (set_ads (update_where (fun r => id_is (Some k) (ad_id r)) activate_row
                (ads s)) s,
     json (AdRow (activate_row a))).
Proof.
  intros Hnd Hid Ha Hk. unfold approveAd, update_ad_approve.
  rewrite (int4_param_route _ _ Hid). subst k.
  by rewrite (filter_id_unique ad_id a (ads s) Hnd Ha).
Qed.

(** C9: approving an ad twice in a row is the same as approving it once:
    the second approval returns the store and the response of the first.
    For an ad that exists, both approvals answer 200 with the ad, its
    status [active] and its other columns as they were. *)
Theorem approveAd_idempotent (id : string) (s : store) :
  approveAd id (approveAd id s).1 = approveAd id s
  ∧ ∀ (k : Z) (a : ad),
      NoDup (ad_id <$> ads s) → int4_in id = Some k →
      a ∈ ads s → ad_id a = k →
      (approveAd id s).2 = json (AdRow (activate_row a))
      ∧ (approveAd id (approveAd id s).1).2 = json (AdRow (activate_row a))
      ∧ activate_row a ∈ ads (approveAd id s).1
      ∧ ad_status (activate_row a) = Some "active"
      ∧ map_ad (activate_row a)
        = {| adv_id := ad_id a;
             adv_clientName := ad_client_name a;
             adv_email := ad_email a;
             adv_plan := ad_plan a;
             adv_amount := ad_amount a;
             adv_status := Some "active";
             adv_dateSubmitted := ad_date_submitted a;
             adv_receiptImage := ad_receipt_image a;
             adv_adImage := ad_ad_image a;
             adv_adContent := ad_ad_content a;
             adv_adUrl := ad_ad_url a;
             adv_adHeadline := ad_ad_headline a;
             adv_adContentFile := ad_ad_content_file a |}.
Proof.
  assert (Hidem : approveAd id (approveAd id s).1 = approveAd id s).
  { unfold approveAd.
    pose proof (update_ad_approve_idem (JStr id) s) as Hq.
    destruct (update_ad_approve (JStr id) s) as [s1 [e|rows]] eqn:Hq1;
      simpl in Hq; simpl.
    - by rewrite Hq.
    - case_decide; simpl; rewrite Hq; by case_decide. }
  split; [exact Hidem|].
  intros k a Hnd Hid Ha Hk. rewrite Hidem.
  rewrite (approveAd_existing id k a s Hnd Hid Ha Hk). simpl.
  split; [done|]. split; [done|]. split; [|done].
  apply elem_of_update_where. exists a. split; [done|].
  rewrite decide_True; [done|]. unfold id_is. by rewrite Hk.
Qed.

Lemma approveAd_idempotent_witness :
  approveAd "1" (approveAd "1" sample_store).1 = approveAd "1" sample_store
  ∧ (approveAd "1" sample_store).2 = json (AdRow (activate_row sample_ad))
  ∧ (approveAd "1" (approveAd "1" sample_store).1).2
    = json (AdRow (activate_row sample_ad)).
Proof.
  destruct (approveAd_idempotent "1" sample_store) as [Hsame Hrow].
  split; [exact Hsame|].
  destruct (Hrow 1 sample_ad) as (H1 & H2 & _).
  - apply (bool_decide_unpack _). vm_compute. exact I.
  - vm_compute. reflexivity.
  - apply (bool_decide_unpack _). vm_compute. exact I.
  - reflexivity.
  - split; [exact H1|exact H2].
Defined.

(** ** Comments and the articles they reference *)

Lemma no_orphans_weaken (s s' : store) :
  (∀ c, c ∈ comments s' → c ∈ comments s) →
  (∀ k, k ∈ art_id <$> articles s → k ∈ art_id <$> articles s') →
  no_orphans s → no_orphans s'.
Proof.
  unfold no_orphans. rewrite !Forall_forall. intros Hc Ha Hs c Hin.
  specialize (Hs c (Hc c Hin)). destruct (cm_article_id c); simpl in *; auto.
Qed.

Lemma insert_article_no_orphans now p1 p2 p3 p4 p5 p6 p7 p8 s :
  no_orphans s → no_orphans (insert_article now p1 p2 p3 p4 p5 p6 p7 p8 s).1.
Proof.
  unfold insert_article.
  destruct (text_param p1), (text_param p3); repeat case_decide; simpl;
    apply no_orphans_weaken; simpl; auto.
  intros k Hk. rewrite fmap_app. apply elem_of_app. by left.
Qed.

Lemma update_article_approve_no_orphans now p1 p2 s :
  no_orphans s → no_orphans (update_article_approve now p1 p2 s).1.
Proof.
  unfold update_article_approve.
  destruct (bool_param p1), (int4_param p2); simpl; auto.
  apply no_orphans_weaken; simpl; auto.
  intros k Hk. by rewrite update_where_ids.
Qed.

Lemma update_article_no_orphans p1 p2 p3 p4 p5 p6 p7 p8 s :
  no_orphans s → no_orphans (update_article p1 p2 p3 p4 p5 p6 p7 p8 s).1.
Proof.
  unfold update_article.
  destruct (bool_param p7), (int4_param p8); simpl; auto.
  destruct (filter _ (articles s)); simpl; auto.
  destruct (text_param p1), (text_param p3); simpl; auto.
  apply no_orphans_weaken; simpl; auto.
  intros k Hk. by rewrite update_where_ids.
Qed.

Lemma delete_article_no_orphans p1 s :
  no_orphans s → no_orphans (delete_article p1 s).1.
Proof.
  unfold delete_article. destruct (int4_param p1) as [k|]; simpl; auto.
  unfold no_orphans. simpl. rewrite !Forall_forall. intros Hs c Hc.
  apply list_elem_of_filter in Hc as [Hkeep Hc]. specialize (Hs c Hc).
  destruct (cm_article_id c) as [j|] eqn:Hj; simpl in *; [|done].
  apply list_elem_of_fmap in Hs as (a & -> & Ha).
  apply list_elem_of_fmap_2. apply list_elem_of_filter. split; [|done].
  intros Hhit. apply Hkeep. apply Exists_exists. exists a. split.
  - by apply list_elem_of_filter.
  - done.
Qed.

Lemma insert_ad_no_orphans now p1 p2 p3 p4 p5 p6 p7 p8 p9 p10 s :
  no_orphans s → no_orphans (insert_ad now p1 p2 p3 p4 p5 p6 p7 p8 p9 p10 s).1.
Proof.
  unfold insert_ad. destruct (numeric_param p4); simpl; auto.
  destruct (text_param p1), (text_param p2), (text_param p3);
    repeat case_decide; simpl; apply no_orphans_weaken; simpl; auto.
Qed.

Lemma update_ad_approve_no_orphans p1 s :
  no_orphans s → no_orphans (update_ad_approve p1 s).1.
Proof.
  unfold update_ad_approve. destruct (int4_param p1); simpl; auto.
Qed.

Lemma delete_ad_no_orphans p1 s :
  no_orphans s → no_orphans (delete_ad p1 s).1.
Proof. unfold delete_ad. destruct (int4_param p1); simpl; auto. Qed.

Lemma insert_comment_no_orphans now p1 p2 p3 p4 s :
  no_orphans s → no_orphans (insert_comment now p1 p2 p3 p4 s).1.
Proof.
  unfold insert_comment. destruct (int4_param p1) as [k|]; simpl; auto.
  destruct (text_param p2), (text_param p3), (text_param p4);
    repeat case_decide; simpl; auto.
  intros Hs. unfold no_orphans. simpl. apply Forall_app. split; [done|].
  by apply Forall_singleton.
Qed.

Lemma insert_support_message_no_orphans now p1 p2 p3 p4 s :
  no_orphans s → no_orphans (insert_support_message now p1 p2 p3 p4 s).1.
Proof.
  unfold insert_support_message.
  destruct (text_param p1), (text_param p2), (text_param p4);
    repeat case_decide; simpl; auto.
Qed.

Lemma handle_no_orphans (now : Z) (r : request) (s : store) :
  no_orphans s → no_orphans (handle now r s).1.
Proof.
  intros Hs. destruct r; simpl; try done.
  - unfold postArticle. destruct (_ || _); [done|].
    statement_case no_orphans insert_article_no_orphans.
  - unfold approveArticle.
    statement_case no_orphans update_article_approve_no_orphans.
  - unfold putArticle.
    statement_case no_orphans update_article_no_orphans.
  - unfold deleteArticle.
    statement_case no_orphans delete_article_no_orphans.
  - unfold postAd. destruct (_ || _); [done|].
    statement_case no_orphans insert_ad_no_orphans.
  - unfold approveAd.
    statement_case no_orphans update_ad_approve_no_orphans.
  - unfold deleteAd.
    statement_case no_orphans delete_ad_no_orphans.
  - unfold postComment.
    statement_case no_orphans insert_comment_no_orphans.
  - unfold getComments. by destruct (select_comments _ _).
  - unfold postSupport.
    statement_case no_orphans insert_support_message_no_orphans.
Qed.

Lemma run_no_orphans (reqs : list (Z * request)) (s : store) :
  no_orphans s → no_orphans (run reqs s).
Proof.
  revert s. induction reqs as [|[now r] reqs IH]; intros s Hs; [done|].
  simpl. by apply IH, handle_no_orphans.
Qed.

Lemma filter_none {A} (P : A → Prop) `{!∀ x, Decision (P x)} (l : list A) :
  (∀ x, x ∈ l → ¬ P x) → filter P l = [].
Proof.
  intros Hno. induction l as [|x l IH]; [done|].
  rewrite filter_cons, decide_False by (apply Hno; by left).
  apply IH. intros y Hy. apply Hno. by right.
Qed.

(** C3: deleting an article removes the article and, with it, every comment
    whose [articleId] references it, and no other comment; the comments
    listed for that article right after are the empty sequence. In a store
    where every comment that names an article names one that is there
    (such is the empty store), that stays so whatever requests follow: no
    comment outlives its article. The id is one the store reads as an
    integer. *)
Theorem deleteArticle_cascades (id : string) (k : Z) (s : store)
    (reqs : list (Z * request)) :
  no_orphans s → int4_in id = Some k →
  let s' := (deleteArticle id s).1 in
  (deleteArticle id s).2 = json (Message "Article deleted successfully")
  ∧ (∀ a, a ∈ articles s' ↔ a ∈ articles s ∧ art_id a ≠ k)
  ∧ (∀ c, c ∈ comments s' ↔ c ∈ comments s ∧ cm_article_id c ≠ Some k)
  ∧ getComments id s' = (s', json (CommentViews []))
  ∧ no_orphans (run reqs s)
  ∧ no_orphans (run reqs s').
Proof.
  intros Hs Hid s'.
  assert (Hs' : no_orphans s').
  { change s' with (handle 0 (DeleteArticle id) s).1.
    by apply handle_no_orphans. }
  assert (Hc : ∀ c, c ∈ comments s' ↔
                    c ∈ comments s ∧ cm_article_id c ≠ Some k).
  { intros c. subst s'. unfold deleteArticle, delete_article.
    rewrite (int4_param_route _ _ Hid). simpl.
    rewrite list_elem_of_filter. split.
    - intros [Hkeep Hc]. split; [done|]. intros Hck. apply Hkeep.
      unfold no_orphans in Hs. rewrite Forall_forall in Hs.
      specialize (Hs c Hc). rewrite Hck in Hs. simpl in Hs.
      apply list_elem_of_fmap in Hs as (a & Hk & Ha).
      apply Exists_exists. exists a. split.
      + apply list_elem_of_filter. split; [|done]. unfold id_is. by rewrite Hk.
      + unfold references. by rewrite Hck, Hk.
    - intros [Hc Hck]. split; [|done]. intros Hex.
      apply Exists_exists in Hex as (a & Ha & Href).
      apply list_elem_of_filter in Ha as [Hhit _].
      unfold id_is in Hhit. unfold references in Href. congruence. }
  split; [|split; [|split; [done|split; [|split]]]].
  - subst s'. unfold deleteArticle, delete_article.
    by rewrite (int4_param_route _ _ Hid).
  - intros a. subst s'. unfold deleteArticle, delete_article.
    rewrite (int4_param_route _ _ Hid). simpl.
    rewrite list_elem_of_filter. unfold id_is.
    split; intros [H1 H2]; split; try done; congruence.
  - unfold getComments, select_comments.
    rewrite (int4_param_route _ _ Hid).
    rewrite filter_none; [done|].
    intros c Hin [_ Hck]. by apply Hc in Hin as [_ Hne].
  - by apply run_no_orphans.
  - by apply run_no_orphans.
Qed.

Lemma deleteArticle_cascades_witness :
  let s' := (deleteArticle "1" sample_store).1 in
  (deleteArticle "1" sample_store).2
  = json (Message "Article deleted successfully")
  ∧ (∀ a, a ∈ articles s' ↔ a ∈ articles sample_store ∧ art_id a ≠ 1)
  ∧ (∀ c, c ∈ comments s' ↔
          c ∈ comments sample_store ∧ cm_article_id c ≠ Some 1)
  ∧ getComments "1" s' = (s', json (CommentViews []))
  ∧ no_orphans (run [(130, PostComment comment_body)] sample_store)
  ∧ no_orphans (run [(130, PostComment comment_body)] s').
Proof.
  apply (deleteArticle_cascades "1" 1 sample_store
           [(130, PostComment comment_body)]).
  - apply (bool_decide_unpack _). vm_compute. exact I.
  - vm_compute. reflexivity.
Defined.

(** ** Approving an article *)

Lemma update_where_none {A} (hit : A → Prop) `{!∀ a, Decision (hit a)}
    (upd : A → A) (rows : list A) :
  (∀ a, a ∈ rows → ¬ hit a) → update_where hit upd rows = rows.
Proof.
  intros Hno. unfold update_where. induction rows as [|a rows IH]; [done|].
  rewrite fmap_cons, decide_False by (apply Hno; by left).
  f_equal. apply IH. intros b Hb. apply Hno. by right.
Qed.

Lemma set_articles_same (s : store) : set_articles (articles s) s = s.
Proof. by destruct s. Qed.

(** What the store reads for [isBreaking || false]. *)
Lemma isBreaking_flag (body : gmap string jsval) :
  (body !! "isBreaking" = None →
   bool_param (js_or (field body "isBreaking") (JBool false))
   = Some (Some false))
  ∧ (∀ b, body !! "isBreaking" = Some (JBool b) →
          bool_param (js_or (field body "isBreaking") (JBool false))
          = Some (Some b)).
Proof.
  split.
  - intros H. by rewrite (field_missing _ _ H).
  - intros b H. rewrite (field_present _ _ _ H). by destruct b.
Qed.



(** ** Submitting an article *)

Lemma status_or_pending (v : jsval) :
  (truthy v = false → text_param (js_or v (JStr "pending")) = Some "pending")
  ∧ (∀ t, v = JStr t → t ≠ "" → text_param (js_or v (JStr "pending")) = Some t).
Proof.
  split.
  - intros H. unfold js_or. by rewrite H.
  - intros t -> Ht. unfold js_or. simpl.
    destruct (String.eqb_spec t ""); [done|]. done.
Qed.




(** ** Updating an article *)




(** ** What a creation answers *)

(** C6, as the code has it. Submitting an article, an ad or a comment
    either adds no row and answers something other than 201, or adds one
    row and answers 201 with that row. Submitting a support message either
    adds no row and answers something other than 201, or adds one row and
    answers 201 with the fixed text "Support message sent": the row added
    is not in the answer. *)
Theorem creation_answers (now : Z) (body : gmap string jsval) (s : store) :
  (let out := postArticle now body s in
   (articles out.1 = articles s ∧ res_status out.2 ≠ 201)
   ∨ (res_status out.2 = 201
      ∧ ∃ a, res_body out.2 = ArticleRow a
             ∧ articles out.1 = articles s ++ [a]))
  ∧ (let out := postAd now body s in
     (ads out.1 = ads s ∧ res_status out.2 ≠ 201)
     ∨ (res_status out.2 = 201
        ∧ ∃ a, res_body out.2 = AdRow a ∧ ads out.1 = ads s ++ [a]))
  ∧ (let out := postComment now body s in
     (comments out.1 = comments s ∧ res_status out.2 ≠ 201)
     ∨ (res_status out.2 = 201
        ∧ ∃ c, res_body out.2 = CommentRow c
               ∧ comments out.1 = comments s ++ [c]))
  ∧ (let out := postSupport now body s in
     (support_messages out.1 = support_messages s ∧ res_status out.2 ≠ 201)
     ∨ (res_status out.2 = 201
        ∧ res_body out.2 = Message "Support message sent"
        ∧ ∃ m, support_messages out.1 = support_messages s ++ [m])).
Proof.
  split; [|split; [|split]]; simpl.
  - unfold postArticle. destruct (_ || _); [by left|].
    unfold insert_article.
    destruct (text_param (field body "title")),
      (text_param (field body "category")); repeat case_decide; simpl;
      try (by left).
    right. split; [done|]. eauto.
  - unfold postAd. destruct (_ || _); [by left|].
    unfold insert_ad. destruct (numeric_param _); [|by left].
    destruct (text_param (field body "clientName")),
      (text_param (field body "email")), (text_param (field body "plan"));
      repeat case_decide; simpl; try (by left).
    right. split; [done|]. eauto.
  - unfold postComment, insert_comment.
    destruct (int4_param _); [|by left].
    destruct (text_param (field body "author")),
      (text_param (field body "email")), (text_param (field body "content"));
      repeat case_decide; simpl; try (by left).
    right. split; [done|]. eauto.
  - unfold postSupport, insert_support_message.
    destruct (text_param (field body "name")),
      (text_param (field body "email")), (text_param (field body "message"));
      repeat case_decide; simpl; try (by left).
    right. split; [done|]. split; [done|]. eauto.
Qed.

(** C6 as stated fails: a support message is created and answered 201, and
    the body of the answer is not the created record. *)
Lemma postSupport_answers_text :
  let out := postSupport 100 support_body init_store in
  res_status out.2 = 201
  ∧ support_messages out.1
    = [{| sm_id := 1; sm_name := "Bob"; sm_email := "bob@example.org";
          sm_subject := None; sm_message := "Help"; sm_date := Some 100;
          sm_status := Some "unread" |}]
  ∧ res_body out.2 = Message "Support message sent"
  ∧ ¬ created_record init_store out.1 (res_body out.2).
Proof.
  vm_compute. repeat split.
  intros [(a & H & _) | [(a & H & _) | [(c & H & _) | (m & H & _)]]];
    discriminate.
Qed.

(** ** The store stays well formed *)

Lemma Forall_update_where {A} (P hit : A → Prop) `{!∀ a, Decision (hit a)}
    (upd : A → A) (rows : list A) :
  (∀ a, P a → P (upd a)) →
  Forall P rows → Forall P (update_where hit upd rows).
Proof.
  intros Hupd. rewrite !Forall_forall. intros Hall b Hb.
  apply elem_of_update_where in Hb as (a & Ha & ->).
  case_decide; auto.
Qed.

Lemma Forall_filter_keep {A} (P Q : A → Prop) `{!∀ a, Decision (Q a)}
    (rows : list A) :
  Forall P rows → Forall P (filter Q rows).
Proof.
  rewrite !Forall_forall. intros Hall a Ha.
  apply list_elem_of_filter in Ha as [_ Ha]. auto.
Qed.

Lemma Forall_snoc {A} (P : A → Prop) (rows : list A) (r : A) :
  Forall P rows → P r → Forall P (rows ++ [r]).
Proof. intros. apply Forall_app. split; [done|]. by apply Forall_singleton. Qed.

Local Hint Resolve table_ok_bump table_ok_insert table_ok_update
  table_ok_filter Forall_update_where Forall_filter_keep Forall_snoc : wf.

Lemma insert_article_wf now p1 p2 p3 p4 p5 p6 p7 p8 s :
  wf_store s → wf_store (insert_article now p1 p2 p3 p4 p5 p6 p7 p8 s).1.
Proof.
  intros Hwf. pose proof Hwf as (Hart & Had & Hcm & Hsm & Hsta & Hstd & Hfk).
  pose proof (insert_article_no_orphans now p1 p2 p3 p4 p5 p6 p7 p8 s Hfk)
    as Hfk'.
  revert Hfk'. unfold insert_article.
  destruct (text_param p1), (text_param p3); intros Hfk';
    wf_statement.
Qed.

Lemma update_article_approve_wf now p1 p2 s :
  wf_store s → wf_store (update_article_approve now p1 p2 s).1.
Proof.
  intros Hwf. pose proof Hwf as (Hart & Had & Hcm & Hsm & Hsta & Hstd & Hfk).
  pose proof (update_article_approve_no_orphans now p1 p2 s Hfk) as Hfk'.
  revert Hfk'. unfold update_article_approve.
  destruct (bool_param p1), (int4_param p2); intros Hfk'; try done;
    wf_statement.
  apply Forall_update_where; [|done]. intros a _. simpl. set_solver.
Qed.

Lemma update_article_wf p1 p2 p3 p4 p5 p6 p7 p8 s :
  wf_store s → wf_store (update_article p1 p2 p3 p4 p5 p6 p7 p8 s).1.
Proof.
  intros Hwf. pose proof Hwf as (Hart & Had & Hcm & Hsm & Hsta & Hstd & Hfk).
  pose proof (update_article_no_orphans p1 p2 p3 p4 p5 p6 p7 p8 s Hfk)
    as Hfk'.
  revert Hfk'. unfold update_article.
  destruct (bool_param p7), (int4_param p8); try done.
  destruct (filter _ (articles s)) as [|r0 rows0]; try done.
  destruct (text_param p1), (text_param p3); intros Hfk'; try done;
    wf_statement.
Qed.

Lemma delete_article_wf p1 s :
  wf_store s → wf_store (delete_article p1 s).1.
Proof.
  intros Hwf. pose proof Hwf as (Hart & Had & Hcm & Hsm & Hsta & Hstd & Hfk).
  pose proof (delete_article_no_orphans p1 s Hfk) as Hfk'.
  revert Hfk'. unfold delete_article.
  destruct (int4_param p1); intros Hfk'; try done; wf_statement.
Qed.

Lemma insert_ad_wf now p1 p2 p3 p4 p5 p6 p7 p8 p9 p10 s :
  wf_store s → wf_store (insert_ad now p1 p2 p3 p4 p5 p6 p7 p8 p9 p10 s).1.
Proof.
  intros Hwf. pose proof Hwf as (Hart & Had & Hcm & Hsm & Hsta & Hstd & Hfk).
  unfold insert_ad. destruct (numeric_param p4); try done.
  destruct (text_param p1), (text_param p2), (text_param p3);
    wf_statement.
  apply Forall_snoc; [done|]. simpl. set_solver.
Qed.

Lemma update_ad_approve_wf p1 s :
  wf_store s → wf_store (update_ad_approve p1 s).1.
Proof.
  intros Hwf. pose proof Hwf as (Hart & Had & Hcm & Hsm & Hsta & Hstd & Hfk).
  unfold update_ad_approve. destruct (int4_param p1); try done.
  wf_statement.
  apply Forall_update_where; [|done]. intros a _. simpl. set_solver.
Qed.

Lemma delete_ad_wf p1 s : wf_store s → wf_store (delete_ad p1 s).1.
Proof.
  intros Hwf. pose proof Hwf as (Hart & Had & Hcm & Hsm & Hsta & Hstd & Hfk).
  unfold delete_ad. destruct (int4_param p1); try done. wf_statement.
Qed.

Lemma insert_comment_wf now p1 p2 p3 p4 s :
  wf_store s → wf_store (insert_comment now p1 p2 p3 p4 s).1.
Proof.
  intros Hwf. pose proof Hwf as (Hart & Had & Hcm & Hsm & Hsta & Hstd & Hfk).
  pose proof (insert_comment_no_orphans now p1 p2 p3 p4 s Hfk) as Hfk'.
  revert Hfk'. unfold insert_comment. destruct (int4_param p1); try done.
  destruct (text_param p2), (text_param p3), (text_param p4); intros Hfk';
    wf_statement.
Qed.

Lemma insert_support_message_wf now p1 p2 p3 p4 s :
  wf_store s → wf_store (insert_support_message now p1 p2 p3 p4 s).1.
Proof.
  intros Hwf. pose proof Hwf as (Hart & Had & Hcm & Hsm & Hsta & Hstd & Hfk).
  unfold insert_support_message.
  destruct (text_param p1), (text_param p2), (text_param p4);
    wf_statement.
Qed.

Lemma handle_wf (now : Z) (r : request) (s : store) :
  wf_store s → wf_store (handle now r s).1.
Proof.
  intros Hs. destruct r; simpl; try done.
  - unfold postArticle. destruct (_ || _); [done|].
    statement_case wf_store insert_article_wf.
  - unfold approveArticle.
    statement_case wf_store update_article_approve_wf.
  - unfold putArticle.
    statement_case wf_store update_article_wf.
  - unfold deleteArticle.
    statement_case wf_store delete_article_wf.
  - unfold postAd. destruct (_ || _); [done|].
    statement_case wf_store insert_ad_wf.
  - unfold approveAd.
    statement_case wf_store update_ad_approve_wf.
  - unfold deleteAd.
    statement_case wf_store delete_ad_wf.
  - unfold postComment.
    statement_case wf_store insert_comment_wf.
  - unfold getComments. by destruct (select_comments _ _).
  - unfold postSupport.
    statement_case wf_store insert_support_message_wf.
Qed.

Lemma run_wf (reqs : list (Z * request)) (s : store) :
  wf_store s → wf_store (run reqs s).
Proof.
  revert s. induction reqs as [|[now r] reqs IH]; intros s Hs; [done|].
  simpl. by apply IH, handle_wf.
Qed.

(** Every store the API builds from the empty one is well formed. *)
Lemma run_init_store_wf (reqs : list (Z * request)) :
  wf_store (run reqs init_store).
Proof. apply run_wf, init_store_wf. Qed.

(** ** How a status moves *)

Section History.
Context {A : Type} (id : A → Z) (status : A → option string)
  (target : string).

Lemma stays_or_becomes_refl (st : option string) :
  stays_or_becomes target st st.
Proof. by left. Qed.

Lemma stays_or_becomes_trans (st1 st2 st3 : option string) :
  stays_or_becomes target st1 st2 → stays_or_becomes target st2 st3 →
  stays_or_becomes target st1 st3.
Proof. unfold stays_or_becomes. intros [-> | ->] [-> | ->]; auto. Qed.

Lemma status_history_refl (rows : list A) (next : Z) :
  status_history id status target rows next rows next.
Proof.
  split; [lia|]. intros r Hr. left. exists r. repeat split; try done.
  apply stays_or_becomes_refl.
Qed.

Lemma status_history_bump (rows : list A) (next : Z) :
  status_history id status target rows next rows (next + 1).
Proof.
  split; [lia|]. intros r Hr. left. exists r. repeat split; try done.
  apply stays_or_becomes_refl.
Qed.

Lemma status_history_insert (rows : list A) (next : Z) (r : A) :
  id r = next →
  status_history id status target rows next (rows ++ [r]) (next + 1).
Proof.
  intros Hr. split; [lia|]. intros r' Hr'.
  apply elem_of_app in Hr' as [Hr' | Hr'].
  - left. exists r'. repeat split; try done. apply stays_or_becomes_refl.
  - apply list_elem_of_singleton in Hr'. subst r'. right. lia.
Qed.

Lemma status_history_update (hit : A → Prop) `{!∀ a, Decision (hit a)}
    (upd : A → A) (rows : list A) (next : Z) :
  (∀ a, id (upd a) = id a) →
  (∀ a, stays_or_becomes target (status a) (status (upd a))) →
  status_history id status target rows next
    (update_where hit upd rows) next.
Proof.
  intros Hid Hst. split; [lia|]. intros r' Hr'.
  apply elem_of_update_where in Hr' as (r & Hr & ->).
  left. exists r. split; [done|]. case_decide.
  - split; [by rewrite Hid|apply Hst].
  - split; [done|apply stays_or_becomes_refl].
Qed.

Lemma status_history_filter (P : A → Prop) `{!∀ a, Decision (P a)}
    (rows : list A) (next : Z) :
  status_history id status target rows next (filter P rows) next.
Proof.
  split; [lia|]. intros r Hr. apply list_elem_of_filter in Hr as [_ Hr].
  left. exists r. repeat split; try done. apply stays_or_becomes_refl.
Qed.

Lemma status_history_trans (rows1 rows2 rows3 : list A) (n1 n2 n3 : Z) :
  status_history id status target rows1 n1 rows2 n2 →
  status_history id status target rows2 n2 rows3 n3 →
  status_history id status target rows1 n1 rows3 n3.
Proof.
  intros [Hn12 H12] [Hn23 H23]. split; [lia|]. intros r3 Hr3.
  destruct (H23 r3 Hr3) as [(r2 & Hr2 & Hid2 & Hst2) | Hnew]; [|right; lia].
  destruct (H12 r2 Hr2) as [(r1 & Hr1 & Hid1 & Hst1) | Hnew].
  - left. exists r1. split; [done|]. split; [congruence|].
    by apply (stays_or_becomes_trans _ (status r2)).
  - right. lia.
Qed.

(** In a table whose sequence is ahead of its ids, a later row with the id
    of an earlier row continues that row. *)
Lemma status_history_same_id (rows rows' : list A) (next next' : Z)
    (r r' : A) :
  table_ok id rows next →
  status_history id status target rows next rows' next' →
  r ∈ rows → r' ∈ rows' → id r' = id r →
  stays_or_becomes target (status r) (status r').
Proof.
  intros Hok [_ Hh] Hr Hr' Hid.
  destruct (Hh r' Hr') as [(r0 & Hr0 & Hid0 & Hst) | Hnew].
  - destruct Hok as [Hnd _].
    by rewrite (same_id_same_row id r r0 rows Hnd Hr Hr0) by congruence.
  - destruct Hok as [_ Hlt]. rewrite Forall_forall in Hlt.
    specialize (Hlt r Hr). lia.
Qed.
End History.

Local Hint Resolve status_history_refl status_history_bump
  status_history_insert status_history_filter : wf.

Lemma insert_article_history now p1 p2 p3 p4 p5 p6 p7 p8 s :
  articles_history s (insert_article now p1 p2 p3 p4 p5 p6 p7 p8 s).1
  ∧ ads_history s (insert_article now p1 p2 p3 p4 p5 p6 p7 p8 s).1.
Proof.
  unfold insert_article.
  destruct (text_param p1), (text_param p3); split; history_statement.
Qed.

Lemma update_article_approve_history now p1 p2 s :
  articles_history s (update_article_approve now p1 p2 s).1
  ∧ ads_history s (update_article_approve now p1 p2 s).1.
Proof.
  unfold update_article_approve.
  destruct (bool_param p1), (int4_param p2); split; history_statement.
  apply status_history_update; [done|]. intros a. by right.
Qed.

Lemma update_article_history p1 p2 p3 p4 p5 p6 p7 p8 s :
  articles_history s (update_article p1 p2 p3 p4 p5 p6 p7 p8 s).1
  ∧ ads_history s (update_article p1 p2 p3 p4 p5 p6 p7 p8 s).1.
Proof.
  unfold update_article.
  destruct (bool_param p7), (int4_param p8);
    try (split; history_statement; fail).
  destruct (filter _ (articles s)) as [|r0 rows0];
    try (split; history_statement; fail).
  destruct (text_param p1), (text_param p3); split; history_statement.
  apply status_history_update; [done|]. intros a. by left.
Qed.

Lemma delete_article_history p1 s :
  articles_history s (delete_article p1 s).1
  ∧ ads_history s (delete_article p1 s).1.
Proof.
  unfold delete_article. destruct (int4_param p1); split; history_statement.
Qed.

Lemma insert_ad_history now p1 p2 p3 p4 p5 p6 p7 p8 p9 p10 s :
  articles_history s (insert_ad now p1 p2 p3 p4 p5 p6 p7 p8 p9 p10 s).1
  ∧ ads_history s (insert_ad now p1 p2 p3 p4 p5 p6 p7 p8 p9 p10 s).1.
Proof.
  unfold insert_ad. destruct (numeric_param p4);
    try (split; history_statement; fail).
  destruct (text_param p1), (text_param p2), (text_param p3);
    split; history_statement.
Qed.

Lemma update_ad_approve_history p1 s :
  articles_history s (update_ad_approve p1 s).1
  ∧ ads_history s (update_ad_approve p1 s).1.
Proof.
  unfold update_ad_approve. destruct (int4_param p1); split;
    history_statement.
  apply status_history_update; [done|]. intros a. by right.
Qed.

Lemma delete_ad_history p1 s :
  articles_history s (delete_ad p1 s).1 ∧ ads_history s (delete_ad p1 s).1.
Proof.
  unfold delete_ad. destruct (int4_param p1); split; history_statement.
Qed.

Lemma insert_comment_history now p1 p2 p3 p4 s :
  articles_history s (insert_comment now p1 p2 p3 p4 s).1
  ∧ ads_history s (insert_comment now p1 p2 p3 p4 s).1.
Proof.
  unfold insert_comment. destruct (int4_param p1);
    try (split; history_statement; fail).
  destruct (text_param p2), (text_param p3), (text_param p4);
    split; history_statement.
Qed.

Lemma insert_support_message_history now p1 p2 p3 p4 s :
  articles_history s (insert_support_message now p1 p2 p3 p4 s).1
  ∧ ads_history s (insert_support_message now p1 p2 p3 p4 s).1.
Proof.
  unfold insert_support_message.
  destruct (text_param p1), (text_param p2), (text_param p4);
    split; history_statement.
Qed.

Lemma history_refl (s : store) : articles_history s s ∧ ads_history s s.
Proof. split; apply status_history_refl. Qed.

Lemma handle_history (now : Z) (r : request) (s : store) :
  articles_history s (handle now r s).1 ∧ ads_history s (handle now r s).1.
Proof.
  pose proof (history_refl s) as Hrefl.
  destruct r; simpl; try done.
  - unfold postArticle. destruct (_ || _); [done|].
    statement_case (fun s' => articles_history s s' ∧ ads_history s s')
      insert_article_history.
  - unfold approveArticle.
    statement_case (fun s' => articles_history s s' ∧ ads_history s s')
      update_article_approve_history.
  - unfold putArticle.
    statement_case (fun s' => articles_history s s' ∧ ads_history s s')
      update_article_history.
  - unfold deleteArticle.
    statement_case (fun s' => articles_history s s' ∧ ads_history s s')
      delete_article_history.
  - unfold postAd. destruct (_ || _); [done|].
    statement_case (fun s' => articles_history s s' ∧ ads_history s s')
      insert_ad_history.
  - unfold approveAd.
    statement_case (fun s' => articles_history s s' ∧ ads_history s s')
      update_ad_approve_history.
  - unfold deleteAd.
    statement_case (fun s' => articles_history s s' ∧ ads_history s s')
      delete_ad_history.
  - unfold postComment.
    statement_case (fun s' => articles_history s s' ∧ ads_history s s')
      insert_comment_history.
  - unfold getComments. by destruct (select_comments _ _).
  - unfold postSupport.
    statement_case (fun s' => articles_history s s' ∧ ads_history s s')
      insert_support_message_history.
Qed.

Lemma run_history (reqs : list (Z * request)) (s : store) :
  articles_history s (run reqs s) ∧ ads_history s (run reqs s).
Proof.
  revert s. induction reqs as [|[now r] reqs IH]; intros s.
  - apply history_refl.
  - simpl. destruct (handle_history now r s) as [Ha Hd].
    destruct (IH (handle now r s).1) as [Ha' Hd'].
    split; eapply status_history_trans; eauto.
Qed.

(** C7, as the code has it. Over any sequence of requests, from a store
    that is well formed, the status of an article that is still there
    either is what it was or is published, and the status of an ad either
    is what it was or is active: approval moves a status to published or
    active from whatever it was, nothing moves a status to rejected or back
    to pending, and a published article stays published, an active ad
    active. *)
Theorem status_moves_one_way (reqs : list (Z * request)) (s : store) :
  wf_store s →
  (∀ a a', a ∈ articles s → a' ∈ articles (run reqs s) →
           art_id a' = art_id a →
           stays_or_becomes "published" (art_status a) (art_status a'))
  ∧ (∀ a a', a ∈ ads s → a' ∈ ads (run reqs s) → ad_id a' = ad_id a →
             stays_or_becomes "active" (ad_status a) (ad_status a')).
Proof.
  intros (Hart & Had & _). destruct (run_history reqs s) as [Ha Hd].
  split; intros a a' Hin Hin' Hid.
  - eapply status_history_same_id; eauto.
  - eapply status_history_same_id; eauto.
Qed.

Lemma status_moves_one_way_witness :
  stays_or_becomes "published" (art_status sample_article)
    (art_status (approve_row 200 (Some false) sample_article))
  ∧ stays_or_becomes "active" (ad_status sample_ad)
      (ad_status (activate_row sample_ad)).
Proof.
  destruct (status_moves_one_way
              [(200, ApproveArticle "1" ∅); (210, ApproveAd "1")]
              sample_store) as [Ha Hd].
  - apply (bool_decide_unpack _). vm_compute. exact I.
  - split.
    + apply Ha.
      * apply (bool_decide_unpack _). vm_compute. exact I.
      * vm_compute. apply list_elem_of_singleton. reflexivity.
      * reflexivity.
    + apply Hd.
      * apply (bool_decide_unpack _). vm_compute. exact I.
      * vm_compute. apply list_elem_of_singleton. reflexivity.
      * reflexivity.
Defined.

(** C7 as stated fails: an article submitted as rejected is published by an
    approval, a move the claim rules out. *)
Lemma rejected_article_is_published :
  let body :=
    body_of [("title", JStr "T"); ("category", JStr "News");
             ("content", JStr "C"); ("status", JStr "rejected")] in
  let s1 := run [(100, PostArticle body)] init_store in
  let s2 := run [(200, ApproveArticle "1" ∅)] s1 in
  art_status <$> articles s1 = [Some "rejected"]
  ∧ art_status <$> articles s2 = [Some "published"]
  ∧ art_id <$> articles s1 = art_id <$> articles s2.
Proof. vm_compute. repeat split; reflexivity. Qed.

(** ** Stores the API builds *)

Lemma final_status_present (v : jsval) :
  text_param (js_or v (JStr "pending")) ≠ None.
Proof.
  unfold js_or. destruct v as [| |[]|n|t]; simpl; try done;
    by destruct (negb _).
Qed.

(** Every article the API stores has a status: a request never writes a
    NULL status. *)
Lemma handle_status_present (now : Z) (r : request) (s : store) :
  Forall (fun a => art_status a ≠ None) (articles s) →
  Forall (fun a => art_status a ≠ None) (articles (handle now r s).1).
Proof.
  intros Hs. destruct r; simpl; try done.
  - unfold postArticle. destruct (_ || _); [done|]. unfold insert_article.
    destruct (text_param (field body "title")),
      (text_param (field body "category")); repeat case_decide; simpl;
      try done.
    apply Forall_snoc; [done|]. apply final_status_present.
  - unfold approveArticle, update_article_approve.
    destruct (bool_param (js_or (field body "isBreaking") (JBool false))),
      (int4_param (JStr id)); repeat case_decide; simpl;
      try done; by apply Forall_update_where.
  - unfold putArticle, update_article.
    destruct (bool_param (field body "isBreaking")), (int4_param (JStr id));
      try done.
    destruct (filter _ (articles s)) as [|r0 rows0]; try done.
    destruct (text_param (field body "title")),
      (text_param (field body "category")); repeat case_decide; simpl;
      try done; by apply Forall_update_where.
  - unfold deleteArticle, delete_article.
    destruct (int4_param _); simpl; try done. by apply Forall_filter_keep.
  - unfold postAd. destruct (_ || _); [done|]. unfold insert_ad.
    destruct (numeric_param _); try done.
    destruct (text_param (field body "clientName")),
      (text_param (field body "email")), (text_param (field body "plan"));
      repeat case_decide; done.
  - unfold approveAd, update_ad_approve.
    destruct (int4_param _); repeat case_decide; done.
  - unfold deleteAd, delete_ad. by destruct (int4_param _).
  - unfold postComment, insert_comment. destruct (int4_param _); try done.
    destruct (text_param (field body "author")),
      (text_param (field body "email")), (text_param (field body "content"));
      repeat case_decide; done.
  - unfold getComments. by destruct (select_comments _ _).
  - unfold postSupport, insert_support_message.
    destruct (text_param (field body "name")),
      (text_param (field body "email")), (text_param (field body "message"));
      repeat case_decide; done.
Qed.

Lemma run_status_present (reqs : list (Z * request)) (s : store) :
  Forall (fun a => art_status a ≠ None) (articles s) →
  Forall (fun a => art_status a ≠ None) (articles (run reqs s)).
Proof.
  revert s. induction reqs as [|[now r] reqs IH]; intros s Hs; [done|].
  simpl. by apply IH, handle_status_present.
Qed.

(** On a store built by requests from the empty one, the public listing is
    the published articles. *)
Lemma getArticles_after_requests (reqs : list (Z * request)) :
  select_published_articles (run reqs init_store)
  ≡ₚ filter (fun a => art_status a = Some "published")
       (articles (run reqs init_store)).
Proof.
  apply select_published_with_status, run_status_present. constructor.
Qed.

(** * Further properties of the handlers *)

(** ** The listings *)

Lemma filter_all {A} (P : A → Prop) `{!∀ x, Decision (P x)} (l : list A) :
  (∀ x, x ∈ l → P x) → filter P l = l.
Proof.
  intros Hall. induction l as [|x l IH]; [done|].
  rewrite filter_cons, decide_True by (apply Hall; by left).
  f_equal. apply IH. intros y Hy. apply Hall. by right.
Qed.

(** X1: the admin listing of pending articles leaves the store as it is and
    answers 200 with the articles whose status is pending, latest first. No
    article is in both that listing and the public one, and a rejected
    article is in neither. *)
Theorem pending_and_public_listings (s : store) :
  ∃ pending public,
    getPendingArticles s = (s, json (ArticleRows pending))
    ∧ getArticles s = (s, json (ArticleRows public))
    ∧ pending ≡ₚ filter (fun a => art_status a = Some "pending") (articles s)
    ∧ StronglySorted (by_date_desc art_date) pending
    ∧ (∀ a, a ∈ pending → a ∉ public)
    ∧ (∀ a, art_status a = Some "rejected" →
            (a ∉ pending) ∧ (a ∉ public)).
Proof.
  exists (select_pending_articles s), (select_published_articles s).
  unfold select_pending_articles, select_published_articles.
  split; [done|]. split; [done|]. split; [apply order_by_desc_perm|].
  split; [apply order_by_desc_sorted|]. split.
  - intros a. rewrite !elem_of_order_by_desc, !list_elem_of_filter.
    unfold published_or_null. intros [Hp _] [[Hq | Hq] _]; congruence.
  - intros a Hr. rewrite !elem_of_order_by_desc, !list_elem_of_filter.
    unfold published_or_null. split.
    + intros [Hp _]. congruence.
    + intros [[Hq | Hq] _]; congruence.
Qed.

(** X2: the admin listing of ads leaves the store as it is and answers 200
    with every ad of the table, each once per row and renamed to camelCase,
    latest submission first (an ad without a date before all others). *)
Theorem getAdminAds_lists_every_ad (s : store) :
  ∃ views,
    getAdminAds s = (s, json (AdViews views))
    ∧ views ≡ₚ map_ad <$> ads s
    ∧ length views = length (ads s)
    ∧ StronglySorted (by_date_desc adv_dateSubmitted) views.
Proof.
  exists (map_ad <$> select_all_ads s). unfold select_all_ads.
  split; [done|]. split; [by rewrite order_by_desc_perm|].
  split; [by rewrite length_fmap, order_by_desc_perm|].
  apply (StronglySorted_fmap map_ad (by_date_desc ad_date_submitted));
    [done|apply order_by_desc_sorted].
Qed.

(** X3: the renaming of columns to camelCase loses nothing: two ads with
    the same view are the same ad, two comments with the same view the same
    comment. *)
Theorem views_are_lossless :
  (∀ a b : ad, map_ad a = map_ad b → a = b)
  ∧ (∀ c d : comment, map_comment c = map_comment d → c = d).
Proof.
  split.
  - intros [] [] H. unfold map_ad in H. simpl in H.
    inversion H. by subst.
  - intros [] [] H. unfold map_comment in H. simpl in H.
    inversion H. by subst.
Qed.

Lemma filter_active_after_approve (k : Z) (rows : list ad) :
  (∀ b, b ∈ rows → ad_status b ≠ Some "active") →
  filter (fun r => ad_status r = Some "active")
    (update_where (fun r => id_is (Some k) (ad_id r)) activate_row rows)
  = activate_row <$> filter (fun r => id_is (Some k) (ad_id r)) rows.
Proof.
  intros Hno. unfold update_where. induction rows as [|b rows IH]; [done|].
  rewrite fmap_cons, !filter_cons.
  assert (IH' := IH (fun c Hc => Hno c (list_elem_of_further _ _ _ Hc))).
  destruct (decide (id_is (Some k) (ad_id b))) as [Hb|Hb].
  - rewrite decide_True by done. by rewrite fmap_cons, IH'.
  - rewrite decide_False; [done|]. apply Hno. by left.
Qed.

(** X4: in a store where no ad is active, approving an ad that exists makes
    the public listing of active ads exactly that ad, with status active. *)
Theorem approveAd_then_active_listing (id : string) (k : Z) (a : ad)
    (s : store) :
  NoDup (ad_id <$> ads s) → int4_in id = Some k →
  a ∈ ads s → ad_id a = k →
  (∀ b, b ∈ ads s → ad_status b ≠ Some "active") →
  (getActiveAds s).2 = json (AdViews [])
  ∧ (getActiveAds (approveAd id s).1).2
    = json (AdViews [map_ad (activate_row a)]).
Proof.
  intros Hnd Hid Ha Hk Hno. split.
  - unfold getActiveAds, select_active_ads. simpl.
    by rewrite (filter_none _ _ Hno).
  - rewrite (approveAd_existing id k a s Hnd Hid Ha Hk).
    unfold getActiveAds, select_active_ads. simpl.
    rewrite (filter_active_after_approve k (ads s) Hno). subst k.
    by rewrite (filter_id_unique ad_id a (ads s) Hnd Ha).
Qed.

Lemma approveAd_then_active_listing_witness :
  (getActiveAds sample_store).2 = json (AdViews [])
  ∧ (getActiveAds (approveAd "1" sample_store).1).2
    = json (AdViews [map_ad (activate_row sample_ad)]).
Proof.
  apply (approveAd_then_active_listing "1" 1 sample_ad sample_store).
  - apply (bool_decide_unpack _). vm_compute. exact I.
  - vm_compute. reflexivity.
  - apply (bool_decide_unpack _). vm_compute. exact I.
  - reflexivity.
  - intros b Hb. apply list_elem_of_singleton in Hb. subst b. discriminate.
Defined.

(** ** Deleting *)

Lemma deleteArticle_missing (id : string) (k : Z) (s : store) :
  int4_in id = Some k → (∀ a, a ∈ articles s → art_id a ≠ k) →
  deleteArticle id s = (s, json (Message "Article deleted successfully")).
Proof.
  intros Hid Hno. unfold deleteArticle, delete_article.
  rewrite (int4_param_route _ _ Hid).
  rewrite (filter_id_none art_id k (articles s) Hno).
  rewrite !filter_all; [by destruct s| |].
  - intros a Ha [= Hk]. by apply (Hno a Ha).
  - intros c _ Hex. by apply Exists_nil in Hex.
Qed.

Lemma deleteAd_missing (id : string) (k : Z) (s : store) :
  int4_in id = Some k → (∀ a, a ∈ ads s → ad_id a ≠ k) →
  deleteAd id s = (s, json (Message "Ad deleted successfully")).
Proof.
  intros Hid Hno. unfold deleteAd, delete_ad.
  rewrite (int4_param_route _ _ Hid).
  rewrite filter_all; [by destruct s|].
  intros a Ha [= Hk]. by apply (Hno a Ha).
Qed.



(** X6: deleting an ad removes the ads with that id and no other row of any
    table; the ad is then in neither listing of ads, and deleting it again
    answers the same and changes nothing. The id is one the store reads as
    an integer. *)
Theorem deleteAd_removes_that_ad (id : string) (k : Z) (s : store) :
  int4_in id = Some k →
  let s' := (deleteAd id s).1 in
  (deleteAd id s).2 = json (Message "Ad deleted successfully")
  ∧ (∀ a, a ∈ ads s' ↔ a ∈ ads s ∧ ad_id a ≠ k)
  ∧ articles s' = articles s ∧ comments s' = comments s
  ∧ support_messages s' = support_messages s
  ∧ (∀ v views, (getAdminAds s').2 = json (AdViews views)
                ∨ (getActiveAds s').2 = json (AdViews views) →
                v ∈ views → adv_id v ≠ k)
  ∧ deleteAd id s' = (s', json (Message "Ad deleted successfully")).
Proof.
  intros Hid s'.
  assert (Hin : ∀ a, a ∈ ads s' ↔ a ∈ ads s ∧ ad_id a ≠ k).
  { intros a. subst s'. unfold deleteAd, delete_ad.
    rewrite (int4_param_route _ _ Hid). simpl.
    rewrite list_elem_of_filter. unfold id_is.
    split; intros [H1 H2]; split; try done; congruence. }
  split; [|split; [exact Hin|]].
  { unfold deleteAd, delete_ad. by rewrite (int4_param_route _ _ Hid). }
  assert (Hs' : s' = set_ads (filter (fun a => ¬ id_is (Some k) (ad_id a))
                                (ads s)) s).
  { subst s'. unfold deleteAd, delete_ad.
    by rewrite (int4_param_route _ _ Hid). }
  split; [by rewrite Hs'|]. split; [by rewrite Hs'|].
  split; [by rewrite Hs'|]. split.
  - intros v views Hviews Hv. unfold getAdminAds, getActiveAds in Hviews.
    simpl in Hviews.
    assert (Hfrom : ∃ a, a ∈ ads s' ∧ v = map_ad a).
    { destruct Hviews as [[= <-] | [= <-]];
        apply list_elem_of_fmap in Hv as (a & -> & Ha); exists a;
        (split; [|done]).
      - unfold select_all_ads in Ha. by apply elem_of_order_by_desc in Ha.
      - unfold select_active_ads in Ha.
        by apply list_elem_of_filter in Ha as [_ Ha]. }
    destruct Hfrom as (a & Ha & ->). simpl. by apply Hin in Ha as [_ Ha].
  - apply (deleteAd_missing id k s' Hid).
    intros a Ha. by apply Hin in Ha as [_ Ha].
Qed.

Lemma deleteAd_removes_that_ad_witness :
  (deleteAd "1" sample_store).2 = json (Message "Ad deleted successfully")
  ∧ ads (deleteAd "1" sample_store).1 = [].
Proof.
  destruct (deleteAd_removes_that_ad "1" 1 sample_store) as (H1 & _).
  - vm_compute. reflexivity.
  - split; [exact H1|]. vm_compute. reflexivity.
Defined.

(** ** Comments and support messages *)



(** X8: the required fields of a comment and of a support message are
    checked by the store only, as [NOT NULL]: a comment without author,
    email or content, and a support message without name, email or
    message, is answered 400 and nothing is stored. The [articleId] of the
    comment is one the store can read. *)
Theorem comment_and_support_need_their_fields (now : Z)
    (body : gmap string jsval) (s : store) :
  (is_Some (int4_param (field body "articleId")) →
   text_param (field body "author") = None
   ∨ text_param (field body "email") = None
   ∨ text_param (field body "content") = None →
   postComment now body s
   = (bump_comments_id_seq s, status_json 400 (ErrorMessage NotNullViolation)))
  ∧ (text_param (field body "name") = None
     ∨ text_param (field body "email") = None
     ∨ text_param (field body "message") = None →
     postSupport now body s
     = (bump_support_messages_id_seq s,
        status_json 400 (ErrorMessage NotNullViolation))).
Proof.
  split.
  - intros [oid Hart] Hnull. unfold postComment, insert_comment.
    rewrite Hart.
    destruct (text_param (field body "author")),
      (text_param (field body "email")), (text_param (field body "content"));
      try done.
    by destruct Hnull as [? | [? | ?]].
  - intros Hnull. unfold postSupport, insert_support_message.
    destruct (text_param (field body "name")),
      (text_param (field body "email")), (text_param (field body "message"));
      try done.
    by destruct Hnull as [? | [? | ?]].
Qed.

Lemma comment_and_support_need_their_fields_witness :
  postComment 130 (body_of [("articleId", JNum 1); ("author", JStr "Ann")])
    sample_store
  = (bump_comments_id_seq sample_store,
     status_json 400 (ErrorMessage NotNullViolation))
  ∧ postSupport 130 (body_of [("name", JStr "Bob")]) sample_store
    = (bump_support_messages_id_seq sample_store,
       status_json 400 (ErrorMessage NotNullViolation)).
Proof.
  split.
  - apply comment_and_support_need_their_fields.
    + exists (Some 1). vm_compute. reflexivity.
    + right. left. vm_compute. reflexivity.
  - apply comment_and_support_need_their_fields.
    right. left. vm_compute. reflexivity.
Defined.





(** ** What no request does *)

(** X11: every request keeps the store well formed: ids stay unique within
    each table and behind its sequence, the status of an article and of an
    ad stays NULL or one of the three of its table, and no comment names an
    article that is not there. *)
Theorem requests_keep_store_well_formed (reqs : list (Z * request))
    (s : store) :
  wf_store s → wf_store (run reqs s).
Proof. apply run_wf. Qed.

Lemma requests_keep_store_well_formed_witness :
  wf_store
    (run [(130, DeleteArticle "1"); (140, PostComment comment_body);
          (150, ApproveAd "1")] sample_store).
Proof.
  apply requests_keep_store_well_formed.
  apply (bool_decide_unpack _). vm_compute. exact I.
Defined.

Lemma handle_views_zero (now : Z) (r : request) (s : store) :
  Forall (fun a => art_views a = Some 0) (articles s) →
  Forall (fun a => art_views a = Some 0) (articles (handle now r s).1).
Proof.
  intros Hs. destruct r; simpl; try done; handler_cases;
    eauto using Forall_snoc, Forall_update_where, Forall_filter_keep.
Qed.

(** X12: no request counts a view: where every article has zero views,
    every article has zero views after any sequence of requests; such is
    every store built by requests from the empty one. *)
Theorem views_stay_zero (reqs : list (Z * request)) (s : store) :
  Forall (fun a => art_views a = Some 0) (articles s) →
  Forall (fun a => art_views a = Some 0) (articles (run reqs s)).
Proof.
  revert s. induction reqs as [|[now r] reqs IH]; intros s Hs; [done|].
  simpl. by apply IH, handle_views_zero.
Qed.

Lemma views_stay_zero_witness :
  Forall (fun a => art_views a = Some 0)
    (articles
       (run [(130, ApproveArticle "1" ∅); (140, PutArticle "1" article_body);
             (150, GetArticles); (160, PostArticle article_body)]
          sample_store)).
Proof.
  apply views_stay_zero.
  apply (bool_decide_unpack _). vm_compute. exact I.
Defined.

Lemma handle_ads_pending_or_active (now : Z) (r : request) (s : store) :
  Forall (fun a => ad_status a = Some "pending" ∨ ad_status a = Some "active")
    (ads s) →
  Forall (fun a => ad_status a = Some "pending" ∨ ad_status a = Some "active")
    (ads (handle now r s).1).
Proof.
  intros Hs. destruct r; simpl; try done; handler_cases;
    eauto using Forall_snoc, Forall_update_where, Forall_filter_keep.
Qed.

(** X13: no request rejects an ad, and the status of a submitted ad is not
    the caller's to choose: where every ad is pending or active, every ad
    is pending or active after any sequence of requests; such is every
    store built by requests from the empty one. *)
Theorem ads_stay_pending_or_active (reqs : list (Z * request)) (s : store) :
  Forall (fun a => ad_status a = Some "pending" ∨ ad_status a = Some "active")
    (ads s) →
  Forall (fun a => ad_status a = Some "pending" ∨ ad_status a = Some "active")
    (ads (run reqs s)).
Proof.
  revert s. induction reqs as [|[now r] reqs IH]; intros s Hs; [done|].
  simpl. by apply IH, handle_ads_pending_or_active.
Qed.

Lemma ads_stay_pending_or_active_witness :
  Forall (fun a => ad_status a = Some "pending" ∨ ad_status a = Some "active")
    (ads
       (run [(130, PostAd (<["status" := JStr "rejected"]> ad_body));
             (140, ApproveAd "1")] sample_store)).
Proof.
  apply ads_stay_pending_or_active.
  apply (bool_decide_unpack _). vm_compute. exact I.
Defined.

Lemma handle_comments_kept (now : Z) (r : request) (s : store) :
  comments_id_seq s <= comments_id_seq (handle now r s).1
  ∧ ∀ c, c ∈ comments (handle now r s).1 →
         c ∈ comments s ∨ comments_id_seq s <= cm_id c.
Proof.
  destruct r; simpl; try (split; [lia|by left]); handler_cases;
    (split; [lia|]); intros c Hc; try (by left).
  - apply list_elem_of_filter in Hc as [_ Hc]. by left.
  - apply elem_of_app in Hc as [Hc | Hc]; [by left|].
    apply list_elem_of_singleton in Hc. subst c. right. simpl. lia.
Qed.

Lemma run_comments_kept (reqs : list (Z * request)) (s : store) :
  comments_id_seq s <= comments_id_seq (run reqs s)
  ∧ ∀ c, c ∈ comments (run reqs s) →
         c ∈ comments s ∨ comments_id_seq s <= cm_id c.
Proof.
  revert s. induction reqs as [|[now r] reqs IH]; intros s.
  - split; [simpl; lia|by left].
  - simpl. destruct (handle_comments_kept now r s) as [Hn1 H1].
    destruct (IH (handle now r s).1) as [Hn2 H2]. split; [lia|].
    intros c Hc. destruct (H2 c Hc) as [Hc1 | Hnew]; [|right; lia].
    destruct (H1 c Hc1) as [Hc0 | Hnew]; [by left|right; lia].
Qed.

(** X14: a comment is never changed: after any sequence of requests, from
    a store in which comment ids are unique and behind their sequence, a
    comment with the id of an earlier comment is that comment, column for
    column. *)
Theorem comments_are_immutable (reqs : list (Z * request)) (s : store)
    (c c' : comment) :
  table_ok cm_id (comments s) (comments_id_seq s) →
  c ∈ comments s → c' ∈ comments (run reqs s) → cm_id c' = cm_id c →
  c' = c.
Proof.
  intros [Hnd Hlt] Hc Hc' Hid.
  destruct (run_comments_kept reqs s) as [_ Hkept].
  destruct (Hkept c' Hc') as [Hc0 | Hnew].
  - by apply (same_id_same_row cm_id c' c (comments s)).
  - rewrite Forall_forall in Hlt. specialize (Hlt c Hc). lia.
Qed.

Lemma comments_are_immutable_witness :
  default sample_comment
    (comments
       (run [(130, PostComment comment_body); (140, ApproveAd "1")]
          sample_store) !! 0%nat)
  = sample_comment.
Proof.
  apply (comments_are_immutable
           [(130, PostComment comment_body); (140, ApproveAd "1")]
           sample_store sample_comment).
  - apply (bool_decide_unpack _). vm_compute. exact I.
  - apply (bool_decide_unpack _). vm_compute. exact I.
  - apply (bool_decide_unpack _). vm_compute. exact I.
  - vm_compute. reflexivity.
Defined.

Lemma handle_support_kept (now : Z) (r : request) (s : store) :
  support_messages s `prefix_of` support_messages (handle now r s).1.
Proof.
  destruct r; simpl; try done; handler_cases; try done.
  by apply prefix_app_r.
Qed.

(** X15: a support message is never changed and never removed: after any
    sequence of requests the table of support messages begins with the
    messages it held before, in their order. *)
Theorem support_messages_only_grow (reqs : list (Z * request)) (s : store) :
  support_messages s `prefix_of` support_messages (run reqs s).
Proof.
  revert s. induction reqs as [|[now r] reqs IH]; intros s; [done|].
  simpl. etrans; [apply (handle_support_kept now r s)|apply IH].
Qed.

(** ** Articles: editing, publishing, deleting *)

Lemma update_where_column {A B} (col : A → B) (hit : A → Prop)
    `{!∀ a, Decision (hit a)} (upd : A → A) (rows : list A) :
  (∀ a, col (upd a) = col a) →
  col <$> update_where hit upd rows = col <$> rows.
Proof.
  intros Hcol. unfold update_where. rewrite <- list_fmap_compose.
  apply list_fmap_ext. intros i a _. simpl. by case_decide.
Qed.

(** X16: editing an article never publishes it, withdraws it or moves it in
    a listing: whatever the id and the body, the update leaves the id,
    status, date, excerpt and view count of every article as they were, and
    the other tables untouched. *)
Theorem putArticle_keeps_status (id : string) (body : gmap string jsval)
    (s : store) :
  let s' := (putArticle id body s).1 in
  art_id <$> articles s' = art_id <$> articles s
  ∧ art_status <$> articles s' = art_status <$> articles s
  ∧ art_date <$> articles s' = art_date <$> articles s
  ∧ art_excerpt <$> articles s' = art_excerpt <$> articles s
  ∧ art_views <$> articles s' = art_views <$> articles s
  ∧ ads s' = ads s ∧ comments s' = comments s
  ∧ support_messages s' = support_messages s.
Proof.
  simpl. handler_cases; try done.
  all: repeat split; by apply update_where_column.
Qed.

Lemma postArticle_created (now : Z) (body : gmap string jsval) (s : store) :
  articles_id_seq s ∉ art_id <$> articles s →
  truthy (field body "title") = true →
  truthy (field body "category") = true →
  truthy (field body "content") = true →
  status_check article_statuses
    (text_param (js_or (field body "status") (JStr "pending"))) →
  ∃ a, postArticle now body s
       = (set_articles (articles s ++ [a]) (bump_articles_id_seq s),
          status_json 201 (ArticleRow a))
       ∧ art_id a = articles_id_seq s
       ∧ art_status a
         = text_param (js_or (field body "status") (JStr "pending")).
Proof.
  intros Hfresh Ht Hc Hb Hok.
  destruct (truthy_text_param _ Ht) as [title Htitle].
  destruct (truthy_text_param _ Hc) as [category Hcategory].
  unfold postArticle, insert_article. rewrite Ht, Hc, Hb. simpl.
  rewrite Htitle, Hcategory.
  rewrite (decide_True _ _ Hok), (decide_False _ _ Hfresh). eauto.
Qed.



Lemma update_where_twice {A} (hit : A → Prop) `{!∀ a, Decision (hit a)}
    (upd1 upd2 : A → A) (rows : list A) :
  (∀ a, hit a → hit (upd1 a)) → (∀ a, upd2 (upd1 a) = upd2 a) →
  update_where hit upd2 (update_where hit upd1 rows)
  = update_where hit upd2 rows.
Proof.
  intros Hhit Hupd. unfold update_where. rewrite <- list_fmap_compose.
  apply list_fmap_ext. intros i a _. simpl.
  destruct (decide (hit a)) as [Ha|Ha].
  - rewrite decide_True by auto. apply Hupd.
  - by rewrite decide_False.
Qed.

(** X18: of two approvals of the same article the later one decides: the
    second approval answers, and leaves the store, as if the first had not
    happened; the date and the breaking flag of the first are overwritten.
    The flag of the second approval is one the store can read. *)
Theorem approveArticle_last_write_wins (now1 now2 : Z) (id : string)
    (body1 body2 : gmap string jsval) (flag2 : option bool) (s : store) :
  bool_param (js_or (field body2 "isBreaking") (JBool false)) = Some flag2 →
  approveArticle now2 id body2 (approveArticle now1 id body1 s).1
  = approveArticle now2 id body2 s.
Proof.
  intros Hflag2.
  assert (Hq : ∀ p1 s0,
             update_article_approve now2
               (js_or (field body2 "isBreaking") (JBool false)) (JStr id)
               (update_article_approve now1 p1 (JStr id) s0).1
             = update_article_approve now2
                 (js_or (field body2 "isBreaking") (JBool false)) (JStr id)
                 s0).
  { intros p1 s0. unfold update_article_approve. rewrite Hflag2.
    destruct (bool_param p1) as [flag1|], (int4_param (JStr id)) as [k|];
      simpl; try done.
    f_equal.
    - unfold set_articles. simpl. f_equal. by apply update_where_twice.
    - f_equal. rewrite filter_update_where by done.
      rewrite <- list_fmap_compose. by apply list_fmap_ext. }
  unfold approveArticle at 2.
  specialize (Hq (js_or (field body1 "isBreaking") (JBool false)) s).
  destruct (update_article_approve now1 _ (JStr id) s) as [s1 [e|rows]];
    simpl in Hq |- *.
  - unfold approveArticle. by rewrite Hq.
  - case_decide; simpl; unfold approveArticle; by rewrite Hq.
Qed.

Lemma approveArticle_last_write_wins_witness :
  approveArticle 300 "1" ∅
    (approveArticle 200 "1" (body_of [("isBreaking", JBool true)])
       sample_store).1
  = approveArticle 300 "1" ∅ sample_store.
Proof.
  apply (approveArticle_last_write_wins 200 300 "1" _ ∅ (Some false)).
  vm_compute. reflexivity.
Defined.

Lemma approveArticle_existing (now : Z) (id : string) (k : Z)
    (body : gmap string jsval) (flag : option bool) (a : article)
    (s : store) :
  NoDup (art_id <$> articles s) → int4_in id = Some k →
  bool_param (js_or (field body "isBreaking") (JBool false)) = Some flag →
  a ∈ articles s → art_id a = k →
  approveArticle now id body s
  = (set_articles
       (update_where (fun r => id_is (Some k) (art_id r))
          (approve_row now flag) (articles s)) s,
     json (ArticleRow (approve_row now flag a))).
Proof.
  intros Hnd Hid Hflag Ha Hk. unfold approveArticle, update_article_approve.
  rewrite Hflag, (int4_param_route _ _ Hid). subst k.
  by rewrite (filter_id_unique art_id a (articles s) Hnd Ha).
Qed.

Lemma approveArticle_missing (now : Z) (id : string) (k : Z)
    (body : gmap string jsval) (flag : option bool) (s : store) :
  int4_in id = Some k →
  bool_param (js_or (field body "isBreaking") (JBool false)) = Some flag →
  (∀ a, a ∈ articles s → art_id a ≠ k) →
  approveArticle now id body s
  = (s, status_json 404 (Message "Article not found")).
Proof.
  intros Hid Hflag Hno. unfold approveArticle, update_article_approve.
  rewrite Hflag, (int4_param_route _ _ Hid).
  rewrite (filter_id_none art_id k (articles s) Hno). simpl.
  rewrite update_where_none, set_articles_same; [done|].
  intros a Ha [= Hk]. by apply (Hno a Ha).
Qed.

Lemma putArticle_missing (id : string) (k : Z) (body : gmap string jsval)
    (flag : option bool) (s : store) :
  int4_in id = Some k → bool_param (field body "isBreaking") = Some flag →
  (∀ a, a ∈ articles s → art_id a ≠ k) →
  putArticle id body s = (s, status_json 404 (Message "Article not found")).
Proof.
  intros Hid Hflag Hno. unfold putArticle, update_article.
  rewrite Hflag, (int4_param_route _ _ Hid).
  by rewrite (filter_id_none art_id k (articles s) Hno).
Qed.







(** ** Comments without an article; what removes a row *)



Lemma int4_param_route_inv (id : string) (k : option Z) :
  int4_param (JStr id) = Some k → ∃ j, k = Some j ∧ int4_in id = Some j.
Proof.
  unfold int4_param, typed_param. simpl.
  destruct (int4_in id) as [j|]; simpl; [|done]. intros [= <-]. eauto.
Qed.

